(** * poker-database: the hand-history parser of [handhistory.py]

    A shallow embedding of [PokerHandParser.parse_hand_history],
    [PokerHandParser.insert_hand_into_db] and
    [PokerHandParser.process_hand_history_file], together with the pieces of
    the Python runtime they lean on ([str.split], the [in] operator on
    strings, [re.search] for the three patterns of the parser, [int] and
    [float] on captured text, exceptions and [logging]). *)

From Stdlib Require Import List String Ascii Bool Arith NArith ZArith Lia.
From Stdlib Require SpecFloat.
Import ListNotations.

Set Implicit Arguments.

(** ** Text

    A Python [str] is a sequence of Unicode code points. *)

Definition char := N.
Definition text := list char.

Definition chr (a : ascii) : char := N_of_ascii a.

(** [str "..."] is the text of an ASCII literal of the source. *)
Definition str (s : string) : text := map chr (list_ascii_of_string s).

Arguments chr a%_char.
Arguments str s%_string.

(** [is_prefix p s]: [s.startswith(p)]. *)
Fixpoint is_prefix (p s : text) : bool :=
  match p, s with
  | [], _ => true
  | _ :: _, [] => false
  | a :: p', b :: s' => (a =? b)%N && is_prefix p' s'
  end.

(** [contains needle s]: the Python test [needle in s] on strings. *)
Fixpoint contains (needle s : text) : bool :=
  is_prefix needle s ||
  match s with
  | [] => false
  | _ :: s' => contains needle s'
  end.

(** [occurs needle s]: [needle] is a contiguous part of [s]. *)
Definition occurs (needle s : text) : Prop :=
  exists pre post, s = pre ++ needle ++ post.

(** ** [str.split(sep)] with an explicit separator

    Python scans from the left, cuts at the first occurrence of [sep],
    and resumes after it, so occurrences never overlap.  [skip] counts the
    characters of a separator that is being stepped over; [cur] is the block
    under construction, reversed.  (Python raises [ValueError] on an empty
    separator; the parser only ever passes three newlines.) *)

Fixpoint split_go (sep : text) (skip : nat) (cur : text) (s : text)
  : list text :=
  match s with
  | [] => [rev cur]
  | c :: s' =>
      match skip with
      | S n => split_go sep n cur s'
      | O =>
          if is_prefix sep s
          then rev cur :: split_go sep (List.length sep - 1) [] s'
          else split_go sep 0 (c :: cur) s'
      end
  end.

Definition split (sep s : text) : list text := split_go sep 0 [] s.

(** [join sep l]: [sep.join(l)]. *)
Fixpoint join (sep : text) (l : list text) : text :=
  match l with
  | [] => []
  | [b] => b
  | b :: l' => b ++ sep ++ join sep l'
  end.

(** The invariant of [split_go]: no separator starts inside the block
    under construction. *)
Definition clean (sep cur s : text) : Prop :=
  forall a b, rev cur = a ++ b -> b <> [] -> is_prefix sep (b ++ s) = false.

Definition newline : char := 10%N.

(** The block separator of line 190: ["\n\n\n"]. *)
Definition block_separator : text := [newline; newline; newline].

(** ** The regular expressions of the parser

    The three patterns of [parse_hand_history] use literal characters, the
    classes [\d] and [\w], the greedy repetition [+] of a single character
    class and capture groups that are not nested.  The model covers that
    fragment of Python's [re] and nothing more. *)

Inductive cls : Type :=
| CChar (c : char)   (* a literal character, escaped or not *)
| CDigit             (* \d *)
| CWord.             (* \w *)

Inductive atom : Type :=
| One (k : cls)      (* x  *)
| Many (k : cls).    (* x+ *)

Inductive tok : Type :=
| Atom (a : atom)
| Group (body : list atom).   (* ( ... ) *)

Definition regex := list tok.

(** *** Reading a pattern string *)

Inductive lexeme : Type :=
| LOpen | LClose | LPlus
| LCls (k : cls).

Definition ascii_alnum (a : ascii) : bool :=
  let n := N_of_ascii a in
  ((48 <=? n) && (n <=? 57) || (65 <=? n) && (n <=? 90)
   || (97 <=? n) && (n <=? 122))%N.

(** A backslash followed by [d] or [w] is a class, followed by ASCII
    punctuation it is that character; other escapes are outside the
    fragment. *)
Definition escape (a : ascii) : option cls :=
  if (a =? "d")%char then Some CDigit
  else if (a =? "w")%char then Some CWord
  else if ascii_alnum a then None
  else Some (CChar (chr a)).

(** The metacharacters of [re] that the fragment does not give a meaning. *)
Definition unsupported_meta (a : ascii) : bool :=
  existsb (Ascii.eqb a) (list_ascii_of_string ".^$*?{}[]|").

Definition plain (a : ascii) : option lexeme :=
  if (a =? "(")%char then Some LOpen
  else if (a =? ")")%char then Some LClose
  else if (a =? "+")%char then Some LPlus
  else if unsupported_meta a then None
  else Some (LCls (CChar (chr a))).

Definition option_bind {A B} (o : option A) (f : A -> option B) : option B :=
  match o with
  | Some a => f a
  | None => None
  end.

Fixpoint lex (s : list ascii) : option (list lexeme) :=
  match s with
  | [] => Some []
  | a :: s1 =>
      if (a =? "\")%char then
        match s1 with
        | b :: s2 =>
            option_bind (escape b) (fun k =>
            option_map (cons (LCls k)) (lex s2))
        | [] => None
        end
      else
        option_bind (plain a) (fun x => option_map (cons x) (lex s1))
  end.

(** [group_toks inside l]: [inside] holds the atoms of the group that is
    open, reversed. *)
Fixpoint group_toks (inside : option (list atom)) (l : list lexeme)
  : option regex :=
  let push a l' :=
    match inside with
    | None => option_map (cons (Atom a)) (group_toks None l')
    | Some body => group_toks (Some (a :: body)) l'
    end in
  match l with
  | [] => match inside with None => Some [] | Some _ => None end
  | LOpen :: l' =>
      match inside with
      | None => group_toks (Some []) l'
      | Some _ => None
      end
  | LClose :: l' =>
      match inside with
      | Some body => option_map (cons (Group (rev body))) (group_toks None l')
      | None => None
      end
  | LPlus :: _ => None
  | LCls k :: LPlus :: l' => push (Many k) l'
  | LCls k :: l' => push (One k) l'
  end.

(** [re_compile pattern]: [None] when the pattern leaves the fragment. *)
Definition re_compile (pattern : string) : option regex :=
  option_bind (lex (list_ascii_of_string pattern)) (group_toks None).

(** Line 108. *)
Definition hand_number_pattern : string := "PokerStars Hand #(\d+):".
(** Line 114. *)
Definition cash_game_pattern : string := "\(\$(\d+\.\d+)/\$(\d+\.\d+)".
(** Line 120. *)
Definition tournament_pattern : string := "Level \w+ \((\d+)/(\d+)\)".

(** The literal prefix of a pattern, character by character. *)
Definition lit (s : string) : regex :=
  map (fun a => Atom (One (CChar (chr a)))) (list_ascii_of_string s).

Arguments lit s%_string.

Definition hand_number_re : regex :=
  lit "PokerStars Hand #" ++
  [Group [Many CDigit]; Atom (One (CChar (chr ":")))].

Definition decimal_number : list atom :=
  [Many CDigit; One (CChar (chr ".")); Many CDigit].

Definition cash_game_re : regex :=
  lit "($" ++ [Group decimal_number] ++ lit "/$" ++ [Group decimal_number].

Definition tournament_re : regex :=
  lit "Level " ++ [Atom (Many CWord)] ++ lit " (" ++
  [Group [Many CDigit]; Atom (One (CChar (chr "/")));
   Group [Many CDigit]; Atom (One (CChar (chr ")")))].

(** ** Exceptions, logging and the world *)

(** The exception classes that the three methods can see.  All of them are
    subclasses of [Exception]; only [FileNotFoundError] is told apart, by
    the handler of line 203.  [Exception_ context cause] is
    [Exception(f"<context>: {str(cause)}")]. *)
Inductive exn : Type :=
| ValueError
| FileNotFoundError
| ReadError
| DatabaseError
| Exception_ (context : string) (cause : exn).

Inductive outcome (A : Type) : Type :=
| Ret (a : A)
| Raise (e : exn).

Arguments Ret {A} a.
Arguments Raise {A} e.

Inductive level : Type := INFO | WARNING | ERROR.

(** The messages of the [logging] calls, with their format arguments. *)
Inductive message : Type :=
| HandNumberNotFound                          (* line 111 *)
| FailedToParse (e : exn)                     (* line 149 *)
| SkippingNullHandId                          (* line 156 *)
| InsertedSuccessfully (hand_id : Z)          (* line 178 *)
| FailedToInsert (hand_id : option Z) (e : exn)  (* line 180 *)
| ProcessingHand (idx : nat)                  (* line 195 *)
| ErrorProcessingHand (idx : nat) (e : exn)   (* line 200 *)
| FileNotFound (filename : string)            (* line 204 *)
| FailedToProcessFile (e : exn).              (* line 206 *)

(** ** Floats

    A Python [float] is an IEEE 754 binary64 value: [SpecFloat.spec_float]
    with 53 bits of precision and exponents below 1024. *)

Definition float : Type := SpecFloat.spec_float.

(** The binary64 value nearest to [n / d], ties to even, infinity beyond
    the range: the quotient as IEEE 754 division rounds it, which is exact
    rounding of the rational because [n] and [d] enter unrounded. *)
Definition binary64_of_ratio (n : Z) (d : positive) : float :=
  match n with
  | Zpos p =>
      SpecFloat.SFdiv 53 1024
        (SpecFloat.S754_finite false p 0) (SpecFloat.S754_finite false d 0)
  | _ => SpecFloat.S754_zero false
  end.

(** Zero, a positive number or plus infinity. *)
Definition float_nonneg (x : float) : Prop :=
  match x with
  | SpecFloat.S754_zero s => s = false
  | SpecFloat.S754_infinity s => s = false
  | SpecFloat.S754_finite s _ _ => s = false
  | SpecFloat.S754_nan => False
  end.

(** A blind is an [int] or a [float]. *)
Inductive pynum : Type :=
| PyInt (z : Z)
| PyFloat (x : float).

(** The dictionary of lines 140-147, which is also the row of
    [HandHistories] that line 163 inserts.  A value of [None] is
    [Datatypes.None]. *)
Record ParsedHand : Type := {
  HandId : option Z;
  SmallBlind : option pynum;
  BigBlind : option pynum;
  RawHandHistory : text;
  GameType : string;
  HandPlayed : string
}.

Record world : Type := {
  log : list (level * message);
  table : list ParsedHand
}.

(** State and exceptions: a computation runs in a world and returns or
    raises; what it logged and stored stays. *)
Definition M (A : Type) : Type := world -> outcome A * world.

Definition ret {A} (a : A) : M A := fun w => (Ret a, w).

Definition raise {A} (e : exn) : M A := fun w => (Raise e, w).

Definition bind {A B} (m : M A) (f : A -> M B) : M B :=
  fun w =>
    match m w with
    | (Ret a, w') => f a w'
    | (Raise e, w') => (Raise e, w')
    end.

(** [try: m  except Exception as e: h e]. *)
Definition try_except {A} (m : M A) (h : exn -> M A) : M A :=
  fun w =>
    match m w with
    | (Ret a, w') => (Ret a, w')
    | (Raise e, w') => h e w'
    end.

Definition lift {A} (o : outcome A) : M A := fun w => (o, w).

Definition logging (l : level) (m : message) : M unit :=
  fun w => (Ret tt, {| log := log w ++ [(l, m)]; table := table w |}).

Notation "x <- m ;; k" := (bind m (fun x => k))
  (at level 61, m at next level, right associativity).
Notation "m ;; k" := (bind m (fun _ => k))
  (at level 61, right associativity).

(** ** Sample inputs

    The examples at the end run the parser on ASCII text, where the Unicode
    tables are never consulted, with the digit limit of a current CPython. *)

Definition ascii_only_decimal : char -> option N := fun _ => None.
Definition ascii_only_alnum : char -> bool := fun _ => false.
Definition default_max_str_digits : nat := 4300.

Definition empty_world : world := {| log := []; table := [] |}.

Definition always_accepts : list ParsedHand -> ParsedHand -> bool :=
  fun _ _ => true.

(** The floats [0.01] and [0.02]: [0x3F847AE147AE147B] and
    [0x3F947AE147AE147B]. *)
Definition one_cent : float :=
  SpecFloat.S754_finite false 5764607523034235 (-59).
Definition two_cents : float :=
  SpecFloat.S754_finite false 5764607523034235 (-58).

Definition cash_block : text :=
  str "PokerStars Hand #12345: Hold'em No Limit ($0.01/$0.02 USD)".

Definition cash_record : ParsedHand :=
  {| HandId := Some 12345%Z;
     SmallBlind := Some (PyFloat one_cent);
     BigBlind := Some (PyFloat two_cents);
     RawHandHistory := cash_block;
     GameType := "Cash";
     HandPlayed := "Y" |}.

(** The cash pattern and the word [Tournament] in one block. *)
Definition mixed_block : text :=
  str "PokerStars Hand #7: Tournament #9, Hold'em No Limit ($0.01/$0.02 USD)".

Definition mixed_record : ParsedHand :=
  {| HandId := Some 7%Z;
     SmallBlind := Some (PyFloat one_cent);
     BigBlind := Some (PyFloat two_cents);
     RawHandHistory := mixed_block;
     GameType := "Tournament";
     HandPlayed := "Y" |}.

Definition folded_block : text :=
  str "PokerStars Hand #8: Tournament #9, Level I (10/20) " ++
  str "Seat 1: everyonedoes folded before Flop (didn't bet)".

Definition folded_record : ParsedHand :=
  {| HandId := Some 8%Z;
     SmallBlind := Some (PyInt 10);
     BigBlind := Some (PyInt 20);
     RawHandHistory := folded_block;
     GameType := "Tournament";
     HandPlayed := "N" |}.

Definition zero_block : text := str "PokerStars Hand #0:".

(** Two headers in one block: [re.search] stops at the first. *)
Definition two_header_block : text :=
  str "PokerStars Hand #5: PokerStars Hand #0:".


Definition malformed_block : text := str "Seat 1: nobody (1500 in chips)".

(** Two hands around a block without a header. *)
Definition sample_file : text :=
  cash_block ++ block_separator ++ malformed_block ++ block_separator
  ++ folded_block.

Definition sample_read_file : string -> outcome text :=
  fun filename =>
    if String.eqb filename "handhistory.txt" then Ret sample_file
    else Raise FileNotFoundError.

(** ** [__init__]: the driver and the connection strings

    [pyodbc.drivers()] is the list the constructor is given.  The call to
    [logging.basicConfig] only configures the log file and has no
    counterpart here; the line the constructor logs is kept. *)







Definition sample_drivers : list text :=
  [str "SQL Server"; str "PostgreSQL Unicode";
   str "ODBC Driver 17 for SQL Server"; str "ODBC Driver 18 for SQL Server";
   str "MySQL ODBC 8.0"].

Definition never_accepts : list ParsedHand -> ParsedHand -> bool :=
  fun _ _ => false.

Definition unreadable_file : string -> outcome text :=
  fun _ => Raise ReadError.

Definition two_header_record : ParsedHand :=
  {| HandId := Some 5%Z;
     SmallBlind := None;
     BigBlind := None;
     RawHandHistory := two_header_block;
     GameType := "Cash";
     HandPlayed := "Y" |}.


(** A server that keeps [HandId] unique, as the primary key of line 78
    asks. *)
Definition same_hand_id (a b : ParsedHand) : bool :=
  match HandId a, HandId b with
  | Some x, Some y => (x =? y)%Z
  | _, _ => false
  end.

Definition primary_key_server : list ParsedHand -> ParsedHand -> bool :=
  fun t r => negb (existsb (same_hand_id r) t).

(** A file in which no header occurs. *)
Definition headerless_file : text :=
  malformed_block ++ block_separator ++ str "Seat 2: somebody".

Definition headerless_read_file : string -> outcome text :=
  fun _ => Ret headerless_file.

(** A block with blanks before the header and a second header after it. *)
Definition padded_block : text :=
  [newline] ++ str "PokerStars Hand #0042: Hold'em PokerStars Hand #7:".

Section Runtime.

(** The Unicode character database is not part of the repository: for code
    points outside ASCII the decimal-digit value ([Py_UNICODE_TODECIMAL])
    and the alphanumeric test ([Py_UNICODE_ISALNUM]) are parameters. *)
Variable unicode_decimal : char -> option N.
Variable unicode_alnum : char -> bool.

Definition to_decimal (c : char) : option N :=
  if (c <? 128)%N then
    if ((48 <=? c) && (c <=? 57))%N then Some (c - 48)%N else None
  else unicode_decimal c.

(** [\d] on a [str] pattern: a Unicode decimal digit. *)
Definition is_decimal (c : char) : bool :=
  match to_decimal c with Some _ => true | None => false end.

(** [\w] on a [str] pattern: alphanumeric or the underscore. *)
Definition is_word (c : char) : bool :=
  (if (c <? 128)%N then
     ((48 <=? c) && (c <=? 57) || (65 <=? c) && (c <=? 90)
      || (97 <=? c) && (c <=? 122))%N
   else unicode_alnum c)
  || (c =? 95)%N.

Definition cls_ok (k : cls) (c : char) : bool :=
  match k with
  | CChar x => (c =? x)%N
  | CDigit => is_decimal c
  | CWord => is_word c
  end.

(** *** The backtracking matcher

    Continuation-passing, as a backtracking engine works: a repetition
    first tries to take one more character and falls back to the rest of
    the pattern when that fails.  [acc] is the text consumed since the
    group was opened, reversed. *)

Section Matcher.
Variable R : Type.

Fixpoint greedy (k : cls) (next : text -> text -> option R)
         (acc s : text) : option R :=
  match s with
  | [] => None
  | x :: s' =>
      if cls_ok k x then
        match greedy k next (x :: acc) s' with
        | Some r => Some r
        | None => next (x :: acc) s'
        end
      else None
  end.

Fixpoint m_atoms (p : list atom) (k : text -> text -> option R)
         (acc s : text) : option R :=
  match p with
  | [] => k acc s
  | One c :: p' =>
      match s with
      | x :: s' => if cls_ok c x then m_atoms p' k (x :: acc) s' else None
      | [] => None
      end
  | Many c :: p' => greedy c (m_atoms p' k) acc s
  end.

(** [gs] holds the groups closed so far, last one first. *)
Fixpoint m_toks (p : regex) (k : list text -> text -> option R)
         (gs : list text) (s : text) : option R :=
  match p with
  | [] => k gs s
  | Atom a :: p' => m_atoms [a] (fun _ s' => m_toks p' k gs s') [] s
  | Group body :: p' =>
      m_atoms body (fun acc s' => m_toks p' k (rev acc :: gs) s') [] s
  end.
End Matcher.

(** A match object, reduced to what the parser reads from it: the text of
    its groups, [group(1)] first. *)
Definition match_at (p : regex) (s : text) : option (list text) :=
  m_toks p (fun gs _ => Some (rev gs)) [] s.

(** [re.search]: the match at the leftmost position that has one. *)
Fixpoint search (p : regex) (s : text) : option (list text) :=
  match match_at p s with
  | Some m => Some m
  | None =>
      match s with
      | [] => None
      | _ :: s' => search p s'
      end
  end.

Definition re_search (pattern : string) (s : text) : option (list text) :=
  match re_compile pattern with
  | Some p => search p s
  | None => None
  end.

(** [m.group(i)] for [i >= 1]. *)
Definition group (i : nat) (m : list text) : text := nth (i - 1) m [].

(** ** The table and the file system *)

(** The server end of [pyodbc]: whether connecting, the [INSERT] and the
    commit go through for a row, given the rows already there (the primary
    key on [HandId], the column types, the availability of the server). *)
Variable sql_accepts : list ParsedHand -> ParsedHand -> bool.

(** Lines 159-176: nothing is committed unless every call succeeds. *)
Definition sql_insert (r : ParsedHand) : M unit :=
  fun w =>
    if sql_accepts (table w) r
    then (Ret tt, {| log := log w; table := table w ++ [r] |})
    else (Raise DatabaseError, w).

(** Lines 186-187: [open(filename, "r", encoding="utf-8")] and [read()],
    as the file system answers them. *)
Variable read_file : string -> outcome text.

(** ** [int] and [float] on captured text *)

(** [sys.get_int_max_str_digits()]: 4300 by default from CPython 3.11 on,
    0 when the limit is switched off or the interpreter predates it. *)
Variable int_max_str_digits : nat.

(** Leading decimal digits of [s]: their value on top of [acc], their
    number on top of [n], and what follows them. *)
Fixpoint span_digits (acc : Z) (n : nat) (s : text) : Z * nat * text :=
  match s with
  | [] => (acc, n, [])
  | c :: s' =>
      match to_decimal c with
      | Some d => span_digits (10 * acc + Z.of_N d) (S n) s'
      | None => (acc, n, s)
      end
  end.

(** CPython checks the limit only above 640 digits. *)
Definition too_many_digits (n : nat) : bool :=
  (640 <? n) && (0 <? int_max_str_digits) && (int_max_str_digits <? n).

(** [int(s)] on a text of decimal digits.  Signs, blanks and underscores,
    which [int] also reads, cannot occur in a [\d+] capture and are left
    out: the model answers [ValueError] for them. *)
Definition int_of_text (s : text) : outcome Z :=
  match span_digits 0 0 s with
  | (v, S n, []) => if too_many_digits (S n) then Raise ValueError else Ret v
  | _ => Raise ValueError
  end.

(** [float(s)] on decimal digits with at most one point among them: the
    binary64 value nearest to the number the literal denotes, as Python's
    correctly rounded conversion gives it.  Signs, exponents, blanks,
    underscores and the names of infinities, which [float] also reads,
    cannot occur in a capture of the cash pattern and are left out. *)
Definition float_of_text (s : text) : outcome float :=
  match span_digits 0 0 s with
  | (v, S _, []) => Ret (binary64_of_ratio v 1)
  | (v, n1, c :: s1) =>
      if (c =? 46)%N then
        match span_digits v 0 s1 with
        | (v', n2, []) =>
            match n1 + n2 with
            | O => Raise ValueError
            | S _ => Ret (binary64_of_ratio v' (Z.to_pos (10 ^ Z.of_nat n2)))
            end
        | _ => Raise ValueError
        end
      else Raise ValueError
  | _ => Raise ValueError
  end.

(** ** [parse_hand_history] *)

(** [not hand_number] is false: the value is neither [None] nor [0]. *)
Definition truthy (hand_number : option Z) : bool :=
  match hand_number with
  | Some n => negb (n =? 0)%Z
  | None => false
  end.

(** Lines 108-109. *)
Definition extract_hand_number (hand_history_text : text) : M (option Z) :=
  match re_search hand_number_pattern hand_history_text with
  | Some hand_number_match =>
      n <- lift (int_of_text (group 1 hand_number_match)) ;;
      ret (Some n)
  | None => ret None
  end.

(** Lines 114-126. *)
Definition extract_blinds (hand_history_text : text)
  : M (option pynum * option pynum) :=
  match re_search cash_game_pattern hand_history_text with
  | Some cash_game_match =>
      small_blind <- lift (float_of_text (group 1 cash_game_match)) ;;
      big_blind <- lift (float_of_text (group 2 cash_game_match)) ;;
      ret (Some (PyFloat small_blind), Some (PyFloat big_blind))
  | None =>
      match re_search tournament_pattern hand_history_text with
      | Some tournament_match =>
          small_blind <- lift (int_of_text (group 1 tournament_match)) ;;
          big_blind <- lift (int_of_text (group 2 tournament_match)) ;;
          ret (Some (PyInt small_blind), Some (PyInt big_blind))
      | None => ret (None, None)
      end
  end.

Definition folded_marker : text :=
  str "everyonedoes folded before Flop (didn't bet)".
Definition folded_button_marker : text :=
  str "everyonedoes (button) folded before Flop (didn't bet)".

(** Lines 128-131. *)
Definition game_type_of (hand_history_text : text) : string :=
  if contains (str "Tournament") hand_history_text
  then "Tournament"%string
  else "Cash"%string.

(** Lines 133-138. *)
Definition hand_played_of (hand_history_text : text) : string :=
  if contains folded_marker hand_history_text then "N"%string
  else if contains folded_button_marker hand_history_text then "N"%string
  else "Y"%string.

(** The body of the [try], lines 107-147. *)
Definition parse_body (hand_history_text : text) : M (option ParsedHand) :=
  hand_number <- extract_hand_number hand_history_text ;;
  if negb (truthy hand_number) then
    logging WARNING HandNumberNotFound ;;
    ret None
  else
    blinds <- extract_blinds hand_history_text ;;
    let game_type := game_type_of hand_history_text in
    let hand_played := hand_played_of hand_history_text in
    ret (Some {| HandId := hand_number;
                 SmallBlind := fst blinds;
                 BigBlind := snd blinds;
                 RawHandHistory := hand_history_text;
                 GameType := game_type;
                 HandPlayed := hand_played |}).

(** Lines 104-150. *)
Definition parse_hand_history (hand_history_text : text)
  : M (option ParsedHand) :=
  try_except (parse_body hand_history_text)
    (fun e =>
       logging ERROR (FailedToParse e) ;;
       raise (Exception_ "Failed to parse hand history" e)).

(** ** [insert_hand_into_db] *)

(** Lines 155-178.  The dictionary handed over is never empty, so
    [not parsed_hand] is false. *)
Definition insert_body (parsed_hand : ParsedHand) : M unit :=
  match HandId parsed_hand with
  | None => logging ERROR SkippingNullHandId
  | Some hand_id =>
      sql_insert parsed_hand ;;
      logging INFO (InsertedSuccessfully hand_id)
  end.

(** Lines 152-181. *)
Definition insert_hand_into_db (parsed_hand : ParsedHand) : M unit :=
  try_except (insert_body parsed_hand)
    (fun e =>
       logging ERROR (FailedToInsert (HandId parsed_hand) e) ;;
       raise (Exception_ "Failed to insert hand into database" e)).

(** ** [process_hand_history_file] *)

(** Lines 194-201: one turn of the loop, with its own handler. *)
Definition process_hand (idx : nat) (hand_history : text) : M unit :=
  try_except
    (logging INFO (ProcessingHand idx) ;;
     parsed_hand <- parse_hand_history hand_history ;;
     match parsed_hand with
     | Some r => insert_hand_into_db r
     | None => ret tt
     end)
    (fun e => logging ERROR (ErrorProcessingHand idx e)).

(** Line 193: [for idx, hand_history in enumerate(hand_histories, start)].
    An exception that leaves a turn ends the loop. *)
Fixpoint for_enumerate (body : nat -> text -> M unit) (start : nat)
         (hand_histories : list text) : M unit :=
  match hand_histories with
  | [] => ret tt
  | hand_history :: rest =>
      body start hand_history ;;
      for_enumerate body (S start) rest
  end.

(** The body of the outer [try], lines 186-201. *)
Definition process_body (filename : string) : M unit :=
  hand_history_text <- lift (read_file filename) ;;
  let hand_histories := split block_separator hand_history_text in
  for_enumerate process_hand 1 hand_histories.

(** Lines 183-207. *)
Definition process_hand_history_file (filename : string) : M unit :=
  try_except (process_body filename)
    (fun e =>
       match e with
       | FileNotFoundError => logging ERROR (FileNotFound filename)
       | _ =>
           logging ERROR (FailedToProcessFile e) ;;
           raise (Exception_ "Failed to process hand history file" e)
       end).

(** ** What the patterns mean

    The matcher above is the program; the relations below say, without
    reference to any search order, which texts a pattern matches and
    which groups go with them. *)

Inductive atoms_match : list atom -> text -> Prop :=
| am_nil : atoms_match [] []
| am_one : forall k x p w,
    cls_ok k x = true ->
    atoms_match p w ->
    atoms_match (One k :: p) (x :: w)
| am_many : forall k xs p w,
    xs <> [] ->
    forallb (cls_ok k) xs = true ->
    atoms_match p w ->
    atoms_match (Many k :: p) (xs ++ w).

Inductive toks_match : regex -> text -> list text -> Prop :=
| tm_nil : toks_match [] [] []
| tm_atom : forall a p w1 w2 gs,
    atoms_match [a] w1 ->
    toks_match p w2 gs ->
    toks_match (Atom a :: p) (w1 ++ w2) gs
| tm_group : forall body p w1 w2 gs,
    atoms_match body w1 ->
    toks_match p w2 gs ->
    toks_match (Group body :: p) (w1 ++ w2) (w1 :: gs).

(** The pattern matches somewhere in the text. *)
Definition pattern_occurs (p : regex) (s : text) : Prop :=
  exists pre w post gs, s = pre ++ w ++ post /\ toks_match p w gs.

(** A non-empty run of decimal digits: what [\d+] matches. *)
Definition digits (ds : text) : Prop :=
  ds <> [] /\ forallb is_decimal ds = true.

(** [PokerStars Hand #<digits>:] occurs in the block. *)
Definition hand_id_occurs (s : text) : Prop :=
  exists pre ds post,
    digits ds /\ s = pre ++ str "PokerStars Hand #" ++ ds ++ str ":" ++ post.

(** [($<digits>.<digits>/$<digits>.<digits>] occurs in the block. *)
Definition cash_stakes_occur (s : text) : Prop :=
  exists pre i1 f1 i2 f2 post,
    digits i1 /\ digits f1 /\ digits i2 /\ digits f2 /\
    s = pre ++ str "($" ++ (i1 ++ str "." ++ f1) ++ str "/$"
            ++ (i2 ++ str "." ++ f2) ++ post.







(** The server takes each record in its turn: the first with the table as
    it is, the next with the first appended, and so on. *)
Fixpoint accepted_in_turn (t : list ParsedHand) (records : list ParsedHand)
  : Prop :=
  match records with
  | [] => True
  | r :: rest => sql_accepts t r = true /\ accepted_in_turn (t ++ [r]) rest
  end.

(** The number a run of decimal digits denotes, on top of [acc]. *)
Fixpoint decimal_value (acc : Z) (ds : text) : Z :=
  match ds with
  | [] => acc
  | c :: ds' =>
      match to_decimal c with
      | Some d => decimal_value (10 * acc + Z.of_N d) ds'
      | None => acc
      end
  end.

(** The float nearest to the number that [<i>.<f>] denotes. *)
Definition decimal_float (i f : text) : float :=
  binary64_of_ratio (decimal_value (decimal_value 0 i) f)
    (Z.to_pos (10 ^ Z.of_nat (List.length f))).

(** The world after one more line in the log. *)
Definition logged (w : world) (l : level) (m : message) : world :=
  {| log := log w ++ [(l, m)]; table := table w |}.

(** A block the parser turns into the record [r], whatever the world. *)
Definition record_of (hand_history : text) (r : ParsedHand) : Prop :=
  forall w, parse_hand_history hand_history w = (Ret (Some r), w).

(** The "skipping hand" line of the log. *)
Definition is_skip_event (e : level * message) : bool :=
  match e with
  | (WARNING, HandNumberNotFound) => true
  | _ => false
  end.

(** What [parse_hand_history] answers for a block. *)
Definition parse_result (hand_history : text)
  : outcome (option ParsedHand) :=
  fst (parse_hand_history hand_history empty_world).

(** The lines [parse_hand_history] logs, by its answer. *)
Definition parse_log (o : outcome (option ParsedHand))
  : list (level * message) :=
  match o with
  | Ret (Some _) => []
  | Ret None => [(WARNING, HandNumberNotFound)]
  | Raise (Exception_ _ cause) => [(ERROR, FailedToParse cause)]
  | Raise _ => []
  end.


(** The numbers of the "Processing hand" lines of a log. *)
Definition processing_indices (entries : list (level * message))
  : list nat :=
  flat_map (fun e => match e with
                     | (INFO, ProcessingHand idx) => [idx]
                     | _ => []
                     end) entries.

(** The rows one turn of the loop adds to a table [t], and the lines it
    logs after its "Processing hand" line. *)
Definition turn_rows (t : list ParsedHand) (block : text)
  : list ParsedHand :=
  match parse_result block with
  | Ret (Some r) =>
      match HandId r with
      | Some _ => if sql_accepts t r then [r] else []
      | None => []
      end
  | _ => []
  end.

Definition turn_log (idx : nat) (t : list ParsedHand) (block : text)
  : list (level * message) :=
  match parse_result block with
  | Ret (Some r) =>
      match HandId r with
      | Some n =>
          if sql_accepts t r then [(INFO, InsertedSuccessfully n)]
          else
            [(ERROR, FailedToInsert (Some n) DatabaseError);
             (ERROR, ErrorProcessingHand idx
                       (Exception_ "Failed to insert hand into database"
                          DatabaseError))]
      | None => [(ERROR, SkippingNullHandId)]
      end
  | Ret None => [(WARNING, HandNumberNotFound)]
  | Raise e => parse_log (Raise e) ++ [(ERROR, ErrorProcessingHand idx e)]
  end.

(** The same for the whole loop, turn after turn. *)
Fixpoint loop_rows (t : list ParsedHand) (blocks : list text)
  : list ParsedHand :=
  match blocks with
  | [] => []
  | b :: rest => turn_rows t b ++ loop_rows (t ++ turn_rows t b) rest
  end.

Fixpoint loop_log (idx : nat) (t : list ParsedHand) (blocks : list text)
  : list (level * message) :=
  match blocks with
  | [] => []
  | b :: rest =>
      (INFO, ProcessingHand idx) :: turn_log idx t b
      ++ loop_log (S idx) (t ++ turn_rows t b) rest
  end.

(** ** Prefixes and substrings *)

Lemma is_prefix_app : forall p post, is_prefix p (p ++ post) = true.
Proof.
  induction p as [|a p IH]; intros post; simpl.
  - reflexivity.
  - rewrite N.eqb_refl. apply IH.
Qed.

Lemma is_prefix_inv : forall p s,
  is_prefix p s = true -> exists post, s = p ++ post.
Proof.
  induction p as [|a p IH]; intros s H.
  - exists s. reflexivity.
  - destruct s as [|b s]; simpl in H; [discriminate|].
    apply andb_true_iff in H. destruct H as [Hab Hp].
    apply N.eqb_eq in Hab. subst b.
    destruct (IH _ Hp) as [post ->].
    exists post. reflexivity.
Qed.

Lemma contains_occurs : forall needle s,
  contains needle s = true <-> occurs needle s.
Proof.
  intros needle s. split.
  - induction s as [|c s IH]; simpl; intros H.
    + rewrite orb_false_r in H.
      destruct (is_prefix_inv _ _ H) as [post Hs].
      exists [], post. exact Hs.
    + apply orb_true_iff in H. destruct H as [H|H].
      * destruct (is_prefix_inv _ _ H) as [post Hs].
        exists [], post. exact Hs.
      * destruct (IH H) as (pre & post & ->).
        exists (c :: pre), post. reflexivity.
  - intros (pre & post & ->).
    induction pre as [|c pre IH]; simpl.
    + destruct (needle ++ post) eqn:E.
      * simpl. rewrite <- E. rewrite is_prefix_app. reflexivity.
      * simpl. rewrite <- E. rewrite is_prefix_app. reflexivity.
    + rewrite IH. apply orb_true_r.
Qed.

Lemma contains_false_not_occurs : forall needle s,
  contains needle s = false <-> ~ occurs needle s.
Proof.
  intros needle s. rewrite <- contains_occurs.
  destruct (contains needle s); split; intros H; try reflexivity;
    try discriminate; try (intros; discriminate).
  exfalso. apply H. reflexivity.
Qed.


(** ** The splitter *)

Lemma split_go_nonempty : forall sep s skip cur, split_go sep skip cur s <> [].
Proof.
  induction s as [|c s IH]; intros skip cur; simpl.
  - discriminate.
  - destruct skip; [|apply IH].
    destruct (is_prefix sep (c :: s)); [discriminate | apply IH].
Qed.

Lemma join_cons : forall sep b l,
  l <> [] -> join sep (b :: l) = b ++ sep ++ join sep l.
Proof.
  intros sep b [|x l] H; [contradiction | reflexivity].
Qed.

(** Joining the blocks with the separator gives the text back; while a
    separator is being stepped over, what is left of it is dropped. *)
Lemma join_split_go : forall sep, sep <> [] ->
  forall s skip cur,
    (skip <= List.length s)%nat ->
    join sep (split_go sep skip cur s) = rev cur ++ skipn skip s.
Proof.
  intros sep Hsep.
  induction s as [|c s IH]; intros skip cur Hlen.
  - simpl in Hlen. assert (skip = 0%nat) by lia. subst skip.
    simpl. rewrite app_nil_r. reflexivity.
  - destruct skip as [|n].
    + cbn [split_go skipn].
      destruct (is_prefix sep (c :: s)) eqn:Hp.
      * destruct (is_prefix_inv _ _ Hp) as [post Hs].
        destruct sep as [|a sep']; [contradiction|].
        simpl in Hs. injection Hs as Hc Hs'. subst.
        rewrite join_cons by apply split_go_nonempty.
        rewrite IH by (simpl; rewrite length_app; lia).
        simpl. rewrite Nat.sub_0_r.
        rewrite skipn_app, skipn_all, Nat.sub_diag. simpl.
        reflexivity.
      * rewrite IH by lia. simpl. rewrite <- app_assoc. reflexivity.
    + cbn [split_go skipn]. apply IH. simpl in Hlen. lia.
Qed.

Lemma join_split : forall sep s, sep <> [] -> join sep (split sep s) = s.
Proof.
  intros sep s Hsep. unfold split.
  rewrite join_split_go by (assumption || lia). reflexivity.
Qed.

Lemma split_go_no_separator : forall sep s cur,
  contains sep s = false -> split_go sep 0 cur s = [rev cur ++ s].
Proof.
  induction s as [|c s IH]; intros cur H.
  - simpl. rewrite app_nil_r. reflexivity.
  - simpl in H. apply orb_false_iff in H. destruct H as [Hp Hc].
    cbn [split_go]. rewrite Hp. rewrite IH by exact Hc.
    simpl. rewrite <- app_assoc. reflexivity.
Qed.

Lemma is_prefix_weaken : forall p s t,
  is_prefix p s = true -> is_prefix p (s ++ t) = true.
Proof.
  intros p s t H. destruct (is_prefix_inv _ _ H) as [post ->].
  rewrite <- app_assoc. apply is_prefix_app.
Qed.

Lemma clean_block : forall sep cur s,
  sep <> [] -> clean sep cur s -> contains sep (rev cur) = false.
Proof.
  intros sep cur s Hsep Hclean.
  apply contains_false_not_occurs. intros (pre & post & E).
  destruct sep as [|x sep']; [contradiction|].
  specialize (Hclean pre ((x :: sep') ++ post) E).
  rewrite <- app_assoc in Hclean. rewrite is_prefix_app in Hclean.
  assert (false = true -> False) by discriminate.
  apply H. symmetry. apply Hclean. discriminate.
Qed.

Lemma split_go_blocks_clean : forall sep, sep <> [] ->
  forall s skip cur,
    (skip = 0%nat \/ cur = []) ->
    clean sep cur s ->
    Forall (fun b => contains sep b = false) (split_go sep skip cur s).
Proof.
  intros sep Hsep.
  induction s as [|c s IH]; intros skip cur Hmode Hclean.
  - simpl. constructor; [|constructor].
    eapply clean_block; eassumption.
  - destruct skip as [|n].
    + cbn [split_go]. destruct (is_prefix sep (c :: s)) eqn:Hp.
      * constructor.
        -- eapply clean_block; eassumption.
        -- apply IH; [right; reflexivity|].
           intros a b E Hb. destruct a; destruct b; simpl in E;
             try discriminate. contradiction.
      * apply IH; [left; reflexivity|].
        intros a b E Hb. simpl in E.
        destruct (exists_last Hb) as (b' & y & ->).
        rewrite app_assoc in E. apply app_inj_tail in E.
        destruct E as [E ->].
        rewrite <- app_assoc. simpl.
        destruct b' as [|z b'].
        -- simpl. exact Hp.
        -- apply (Hclean a (z :: b') E). discriminate.
    + cbn [split_go]. destruct Hmode as [Hm | Hm]; [discriminate|].
      subst cur. apply IH; [right; reflexivity|].
      intros a b E Hb. destruct a; destruct b; simpl in E;
        try discriminate. contradiction.
Qed.

Lemma split_blocks_clean : forall sep s, sep <> [] ->
  Forall (fun b => contains sep b = false) (split sep s).
Proof.
  intros sep s Hsep. unfold split.
  apply split_go_blocks_clean; [assumption | left; reflexivity |].
  intros a b E Hb. destruct a; destruct b; simpl in E;
    try discriminate. contradiction.
Qed.

(** ** The matcher against the meaning of the patterns *)

Section MatcherCorrect.
Variable R : Type.

Lemma greedy_sound : forall k (next : text -> text -> option R) s acc r,
  greedy k next acc s = Some r ->
  exists xs rest,
    xs <> [] /\ forallb (cls_ok k) xs = true /\ s = xs ++ rest /\
    next (rev xs ++ acc) rest = Some r.
Proof.
  intros k next. induction s as [|x s IH]; intros acc r H; simpl in H.
  - discriminate.
  - destruct (cls_ok k x) eqn:Hx; [|discriminate].
    destruct (greedy k next (x :: acc) s) as [r0|] eqn:Hg.
    + injection H as ->.
      destruct (IH _ _ Hg) as (xs & rest & Hne & Hall & -> & Hk).
      exists (x :: xs), rest. repeat split.
      * discriminate.
      * simpl. rewrite Hx, Hall. reflexivity.
      * simpl. rewrite <- app_assoc. exact Hk.
    + exists [x], s. repeat split.
      * discriminate.
      * simpl. rewrite Hx. reflexivity.
      * exact H.
Qed.

Lemma greedy_complete : forall k (next : text -> text -> option R) xs,
  xs <> [] ->
  forallb (cls_ok k) xs = true ->
  forall acc rest r,
    next (rev xs ++ acc) rest = Some r ->
    exists r', greedy k next acc (xs ++ rest) = Some r'.
Proof.
  intros k next. induction xs as [|x xs IH]; intros Hne Hall acc rest r Hk.
  - contradiction.
  - simpl in Hall. apply andb_true_iff in Hall. destruct Hall as [Hx Hall].
    simpl. rewrite Hx.
    destruct (greedy k next (x :: acc) (xs ++ rest)) as [r0|] eqn:Hg.
    + exists r0. reflexivity.
    + destruct xs as [|y xs].
      * simpl in *. exists r. exact Hk.
      * exfalso.
        assert (Hk' : next (rev (y :: xs) ++ x :: acc) rest = Some r).
        { simpl in Hk. simpl. rewrite <- !app_assoc in *. exact Hk. }
        destruct (IH ltac:(discriminate) Hall _ _ _ Hk') as [r' Hr'].
        rewrite Hr' in Hg. discriminate.
Qed.

Lemma m_atoms_sound : forall p (k : text -> text -> option R) acc s r,
  m_atoms p k acc s = Some r ->
  exists w rest,
    s = w ++ rest /\ atoms_match p w /\ k (rev w ++ acc) rest = Some r.
Proof.
  induction p as [|a p IH]; intros k acc s r H.
  - exists [], s. repeat split; [constructor | exact H].
  - destruct a as [c|c]; simpl in H.
    + destruct s as [|x s]; [discriminate|].
      destruct (cls_ok c x) eqn:Hx; [|discriminate].
      destruct (IH _ _ _ _ H) as (w & rest & -> & Hm & Hk).
      exists (x :: w), rest. repeat split.
      * constructor; assumption.
      * simpl. rewrite <- app_assoc. exact Hk.
    + destruct (greedy_sound _ _ _ _ H)
        as (xs & rest1 & Hne & Hall & -> & Hnext).
      destruct (IH _ _ _ _ Hnext) as (w & rest & -> & Hm & Hk).
      exists (xs ++ w), rest. repeat split.
      * rewrite app_assoc. reflexivity.
      * constructor; assumption.
      * rewrite rev_app_distr, <- app_assoc. exact Hk.
Qed.

Lemma m_atoms_complete : forall p w,
  atoms_match p w ->
  forall (k : text -> text -> option R) acc rest r,
    k (rev w ++ acc) rest = Some r ->
    exists r', m_atoms p k acc (w ++ rest) = Some r'.
Proof.
  induction 1 as [|c x p w Hx Hm IH|c xs p w Hne Hall Hm IH];
    intros k acc rest r Hk.
  - exists r. exact Hk.
  - simpl. rewrite Hx. apply (IH k (x :: acc) rest r).
    simpl in Hk. rewrite <- app_assoc in Hk. exact Hk.
  - simpl. rewrite <- app_assoc.
    destruct (IH k (rev xs ++ acc) rest r) as [r1 Hr1].
    { rewrite rev_app_distr, <- app_assoc in Hk. exact Hk. }
    eapply greedy_complete; eassumption.
Qed.

Lemma m_toks_sound : forall p (k : list text -> text -> option R) gs s r,
  m_toks p k gs s = Some r ->
  exists w rest gs',
    s = w ++ rest /\ toks_match p w gs' /\ k (rev gs' ++ gs) rest = Some r.
Proof.
  induction p as [|t p IH]; intros k gs s r H.
  - exists [], s, []. repeat split; [constructor | exact H].
  - destruct t as [a|body]; cbn [m_toks] in H.
    + destruct (m_atoms_sound _ _ _ _ H) as (w1 & rest1 & -> & Hm & Hk).
      destruct (IH _ _ _ _ Hk) as (w2 & rest & gs' & -> & Hm2 & Hk2).
      exists (w1 ++ w2), rest, gs'. repeat split.
      * rewrite app_assoc. reflexivity.
      * constructor; assumption.
      * exact Hk2.
    + destruct (m_atoms_sound _ _ _ _ H) as (w1 & rest1 & -> & Hm & Hk).
      rewrite app_nil_r, rev_involutive in Hk.
      destruct (IH _ _ _ _ Hk) as (w2 & rest & gs' & -> & Hm2 & Hk2).
      exists (w1 ++ w2), rest, (w1 :: gs'). repeat split.
      * rewrite app_assoc. reflexivity.
      * constructor; assumption.
      * simpl. rewrite <- app_assoc. exact Hk2.
Qed.

Lemma m_toks_complete : forall p w gs',
  toks_match p w gs' ->
  forall (k : list text -> text -> option R) gs rest r,
    k (rev gs' ++ gs) rest = Some r ->
    exists r', m_toks p k gs (w ++ rest) = Some r'.
Proof.
  induction 1 as [|a p w1 w2 gs' Ha Hm IH|body p w1 w2 gs' Hb Hm IH];
    intros k gs rest r Hk.
  - exists r. exact Hk.
  - cbn [m_toks]. rewrite <- app_assoc.
    destruct (IH k gs rest r Hk) as [r1 Hr1].
    eapply m_atoms_complete; [exact Ha|]. exact Hr1.
  - cbn [m_toks]. rewrite <- app_assoc.
    destruct (IH k (w1 :: gs) rest r) as [r1 Hr1].
    { simpl in Hk. rewrite <- app_assoc in Hk. exact Hk. }
    eapply m_atoms_complete; [exact Hb|].
    rewrite app_nil_r, rev_involutive. exact Hr1.
Qed.
End MatcherCorrect.

Lemma match_at_sound : forall p s m,
  match_at p s = Some m ->
  exists w rest, s = w ++ rest /\ toks_match p w m.
Proof.
  intros p s m H. unfold match_at in H.
  destruct (m_toks_sound _ _ _ _ H) as (w & rest & gs & -> & Hm & Hk).
  injection Hk as <-. rewrite app_nil_r, rev_involutive.
  exists w, rest. split; [reflexivity | exact Hm].
Qed.

Lemma match_at_complete : forall p w gs rest,
  toks_match p w gs -> exists m, match_at p (w ++ rest) = Some m.
Proof.
  intros p w gs rest H. unfold match_at.
  eapply m_toks_complete; [exact H | reflexivity].
Qed.

Lemma search_sound : forall p s m,
  search p s = Some m ->
  exists pre w post, s = pre ++ w ++ post /\ toks_match p w m.
Proof.
  intros p. induction s as [|c s IH]; intros m H; simpl in H.
  - destruct (match_at p []) as [m0|] eqn:E; [|discriminate].
    injection H as ->.
    destruct (match_at_sound _ _ E) as (w & post & Hs & Hm).
    exists [], w, post. split; assumption.
  - destruct (match_at p (c :: s)) as [m0|] eqn:E.
    + injection H as ->.
      destruct (match_at_sound _ _ E) as (w & post & Hs & Hm).
      exists [], w, post. split; assumption.
    + destruct (IH _ H) as (pre & w & post & -> & Hm).
      exists (c :: pre), w, post. split; [reflexivity | exact Hm].
Qed.

Lemma search_complete : forall p s,
  pattern_occurs p s -> exists m, search p s = Some m.
Proof.
  intros p s (pre & w & post & gs & -> & Hm).
  induction pre as [|c pre IH].
  - destruct (match_at_complete post Hm) as [m E]. simpl app.
    exists m. destruct (w ++ post); simpl; rewrite E; reflexivity.
  - destruct IH as [m E]. simpl.
    destruct (match_at p (c :: pre ++ w ++ post)) as [m0|].
    + exists m0. reflexivity.
    + exists m. exact E.
Qed.

Lemma search_None : forall p s,
  search p s = None <-> ~ pattern_occurs p s.
Proof.
  intros p s. split.
  - intros H Hocc. destruct (search_complete Hocc) as [m E].
    rewrite E in H. discriminate.
  - intros H. destruct (search p s) as [m|] eqn:E; [|reflexivity].
    exfalso. apply H.
    destruct (search_sound _ _ E) as (pre & w & post & Hs & Hm).
    exists pre, w, post, m. split; assumption.
Qed.

(** ** The shape of what the three patterns match *)

Lemma atoms_nil_inv : forall w, atoms_match [] w -> w = [].
Proof. intros w H. inversion H. reflexivity. Qed.

Lemma atoms_one_inv : forall k p w,
  atoms_match (One k :: p) w ->
  exists x w', w = x :: w' /\ cls_ok k x = true /\ atoms_match p w'.
Proof.
  intros k p w H. inversion H; subst. eauto.
Qed.

Lemma atoms_many_inv : forall k p w,
  atoms_match (Many k :: p) w ->
  exists xs w',
    w = xs ++ w' /\ xs <> [] /\ forallb (cls_ok k) xs = true /\
    atoms_match p w'.
Proof.
  intros k p w H. inversion H; subst. eauto 7.
Qed.

Lemma toks_nil_inv : forall w gs, toks_match [] w gs -> w = [] /\ gs = [].
Proof. intros w gs H. inversion H. split; reflexivity. Qed.

Lemma toks_atom_inv : forall a p w gs,
  toks_match (Atom a :: p) w gs ->
  exists w1 w2, w = w1 ++ w2 /\ atoms_match [a] w1 /\ toks_match p w2 gs.
Proof.
  intros a p w gs H. inversion H; subst. eauto.
Qed.

Lemma toks_group_inv : forall body p w gs,
  toks_match (Group body :: p) w gs ->
  exists w1 w2 gs',
    w = w1 ++ w2 /\ gs = w1 :: gs' /\ atoms_match body w1 /\
    toks_match p w2 gs'.
Proof.
  intros body p w gs H. inversion H; subst. eauto 7.
Qed.

Lemma one_char_match : forall c w,
  atoms_match [One (CChar c)] w <-> w = [c].
Proof.
  intros c w. split.
  - intros H. apply atoms_one_inv in H.
    destruct H as (x & w' & -> & Hx & Hn).
    apply atoms_nil_inv in Hn. subst w'.
    simpl in Hx. apply N.eqb_eq in Hx. subst x. reflexivity.
  - intros ->. constructor; [apply N.eqb_refl | constructor].
Qed.

Lemma many_match : forall k w,
  atoms_match [Many k] w <-> w <> [] /\ forallb (cls_ok k) w = true.
Proof.
  intros k w. split.
  - intros H. apply atoms_many_inv in H.
    destruct H as (xs & w' & -> & Hne & Hall & Hn).
    apply atoms_nil_inv in Hn. subst w'. rewrite app_nil_r.
    split; assumption.
  - intros [Hne Hall]. rewrite <- (app_nil_r w).
    constructor; [assumption | assumption | constructor].
Qed.

Lemma digits_match : forall w, atoms_match [Many CDigit] w <-> digits w.
Proof. intros w. apply many_match. Qed.

Lemma decimal_number_match : forall w,
  atoms_match decimal_number w <->
  exists i f, digits i /\ digits f /\ w = i ++ str "." ++ f.
Proof.
  intros w. unfold decimal_number. split.
  - intros H. apply atoms_many_inv in H.
    destruct H as (i & w1 & -> & Hne & Hall & H).
    apply atoms_one_inv in H. destruct H as (x & w2 & -> & Hx & H).
    apply digits_match in H.
    simpl in Hx. apply N.eqb_eq in Hx. subst x.
    exists i, w2. split; [split; assumption|].
    split; [exact H | reflexivity].
  - intros (i & f & [Hi1 Hi2] & Hf & ->).
    constructor; [assumption | assumption |].
    change (str "." ++ f) with (chr "." :: f).
    constructor; [apply N.eqb_refl | apply digits_match; exact Hf].
Qed.

Lemma literal_match : forall l p w gs,
  toks_match (map (fun a => Atom (One (CChar (chr a)))) l ++ p) w gs <->
  exists w', w = map chr l ++ w' /\ toks_match p w' gs.
Proof.
  induction l as [|a l IH]; intros p w gs; simpl.
  - split.
    + intros H. exists w. split; [reflexivity | exact H].
    + intros (w' & -> & H). exact H.
  - split.
    + intros H. apply toks_atom_inv in H.
      destruct H as (w1 & w2 & -> & Ha & H).
      apply one_char_match in Ha. subst w1.
      apply IH in H. destruct H as (w' & -> & H).
      exists w'. split; [reflexivity | exact H].
    + intros (w' & -> & H).
      change (chr a :: map chr l ++ w') with ([chr a] ++ (map chr l ++ w')).
      constructor.
      * apply one_char_match. reflexivity.
      * apply IH. exists w'. split; [reflexivity | exact H].
Qed.

Lemma lit_match : forall s p w gs,
  toks_match (lit s ++ p) w gs <->
  exists w', w = str s ++ w' /\ toks_match p w' gs.
Proof. intros s. apply literal_match. Qed.

Lemma one_char_tok_match : forall c p w gs,
  toks_match (Atom (One (CChar c)) :: p) w gs <->
  exists w', w = c :: w' /\ toks_match p w' gs.
Proof.
  intros c p w gs. split.
  - intros H. apply toks_atom_inv in H.
    destruct H as (w1 & w2 & -> & Ha & H).
    apply one_char_match in Ha. subst w1.
    exists w2. split; [reflexivity | exact H].
  - intros (w' & -> & H). change (c :: w') with ([c] ++ w').
    constructor; [apply one_char_match; reflexivity | exact H].
Qed.

Lemma hand_number_shape : forall w gs,
  toks_match hand_number_re w gs <->
  exists ds,
    digits ds /\ w = str "PokerStars Hand #" ++ ds ++ str ":" /\ gs = [ds].
Proof.
  intros w gs. unfold hand_number_re. rewrite lit_match. split.
  - intros (w' & -> & H).
    apply toks_group_inv in H.
    destruct H as (ds & w2 & gs' & -> & -> & Hd & H).
    apply digits_match in Hd.
    apply one_char_tok_match in H. destruct H as (w3 & -> & H).
    apply toks_nil_inv in H. destruct H as [-> ->].
    exists ds. split; [exact Hd|]. split; reflexivity.
  - intros (ds & Hd & -> & ->).
    exists (ds ++ str ":"). split; [reflexivity|].
    constructor; [apply digits_match; exact Hd|].
    apply one_char_tok_match. exists []. split; [reflexivity | constructor].
Qed.

Lemma hand_number_occurs : forall s,
  pattern_occurs hand_number_re s <-> hand_id_occurs s.
Proof.
  intros s. split.
  - intros (pre & w & post & gs & -> & H).
    apply hand_number_shape in H. destruct H as (ds & Hd & -> & _).
    exists pre, ds, post. split; [exact Hd|].
    rewrite <- !app_assoc. reflexivity.
  - intros (pre & ds & post & Hd & ->).
    exists pre, (str "PokerStars Hand #" ++ ds ++ str ":"), post, [ds].
    split.
    + rewrite <- !app_assoc. reflexivity.
    + apply hand_number_shape. exists ds.
      split; [exact Hd|]. split; reflexivity.
Qed.

Lemma cash_game_shape : forall w gs,
  toks_match cash_game_re w gs <->
  exists i1 f1 i2 f2,
    digits i1 /\ digits f1 /\ digits i2 /\ digits f2 /\
    w = str "($" ++ (i1 ++ str "." ++ f1) ++ str "/$"
          ++ (i2 ++ str "." ++ f2) /\
    gs = [i1 ++ str "." ++ f1; i2 ++ str "." ++ f2].
Proof.
  intros w gs. unfold cash_game_re. rewrite lit_match. split.
  - intros (w' & -> & H).
    apply toks_group_inv in H.
    destruct H as (g1 & w2 & gs' & -> & -> & Hg1 & H).
    apply decimal_number_match in Hg1.
    destruct Hg1 as (i1 & f1 & Hi1 & Hf1 & ->).
    apply lit_match in H. destruct H as (w3 & -> & H).
    apply toks_group_inv in H.
    destruct H as (g2 & w4 & gs'' & -> & -> & Hg2 & H).
    apply decimal_number_match in Hg2.
    destruct Hg2 as (i2 & f2 & Hi2 & Hf2 & ->).
    apply toks_nil_inv in H. destruct H as [-> ->].
    exists i1, f1, i2, f2. rewrite app_nil_r.
    do 4 (split; [assumption|]). split; reflexivity.
  - intros (i1 & f1 & i2 & f2 & Hi1 & Hf1 & Hi2 & Hf2 & -> & ->).
    eexists. split; [reflexivity|].
    constructor; [apply decimal_number_match; eauto|].
    apply lit_match. eexists. split; [reflexivity|].
    rewrite <- (app_nil_r (i2 ++ str "." ++ f2)) at 1.
    constructor; [apply decimal_number_match; eauto | constructor].
Qed.

Lemma cash_game_occurs : forall s,
  pattern_occurs cash_game_re s <-> cash_stakes_occur s.
Proof.
  intros s. split.
  - intros (pre & w & post & gs & -> & H).
    apply cash_game_shape in H.
    destruct H as (i1 & f1 & i2 & f2 & H1 & H2 & H3 & H4 & -> & _).
    exists pre, i1, f1, i2, f2, post.
    do 4 (split; [assumption|]).
    rewrite <- !app_assoc. reflexivity.
  - intros (pre & i1 & f1 & i2 & f2 & post & H1 & H2 & H3 & H4 & ->).
    exists pre, (str "($" ++ (i1 ++ str "." ++ f1) ++ str "/$"
                   ++ (i2 ++ str "." ++ f2)), post,
      [i1 ++ str "." ++ f1; i2 ++ str "." ++ f2].
    split.
    + rewrite <- !app_assoc. reflexivity.
    + apply cash_game_shape. exists i1, f1, i2, f2.
      do 4 (split; [assumption|]). split; reflexivity.
Qed.

Lemma tournament_shape : forall w gs,
  toks_match tournament_re w gs <->
  exists word sb bb,
    word <> [] /\ forallb is_word word = true /\ digits sb /\ digits bb /\
    w = str "Level " ++ word ++ str " (" ++ sb ++ str "/" ++ bb ++ str ")" /\
    gs = [sb; bb].
Proof.
  intros w gs. unfold tournament_re. rewrite lit_match. split.
  - intros (w' & -> & H).
    apply toks_atom_inv in H. destruct H as (word & w2 & -> & Hw & H).
    apply many_match in Hw. destruct Hw as [Hw1 Hw2].
    apply lit_match in H. destruct H as (w3 & -> & H).
    apply toks_group_inv in H.
    destruct H as (sb & w4 & gs1 & -> & -> & Hsb & H).
    apply digits_match in Hsb.
    apply one_char_tok_match in H. destruct H as (w5 & -> & H).
    apply toks_group_inv in H.
    destruct H as (bb & w6 & gs2 & -> & -> & Hbb & H).
    apply digits_match in Hbb.
    apply one_char_tok_match in H. destruct H as (w7 & -> & H).
    apply toks_nil_inv in H. destruct H as [-> ->].
    exists word, sb, bb.
    do 4 (split; [assumption|]). split; reflexivity.
  - intros (word & sb & bb & Hw1 & Hw2 & Hsb & Hbb & -> & ->).
    eexists. split; [reflexivity|].
    constructor; [apply many_match; split; assumption|].
    apply lit_match. eexists. split; [reflexivity|].
    constructor; [apply digits_match; exact Hsb|].
    apply one_char_tok_match. eexists. split; [reflexivity|].
    constructor; [apply digits_match; exact Hbb|].
    apply one_char_tok_match. exists []. split; [reflexivity | constructor].
Qed.


(** The pattern strings of the source compile to the expressions above. *)
Lemma hand_number_compiles :
  re_compile hand_number_pattern = Some hand_number_re.
Proof. reflexivity. Qed.

Lemma cash_game_compiles : re_compile cash_game_pattern = Some cash_game_re.
Proof. reflexivity. Qed.

Lemma tournament_compiles :
  re_compile tournament_pattern = Some tournament_re.
Proof. reflexivity. Qed.

(** ** [int] and [float] on what the patterns capture *)

Lemma span_digits_app : forall ds acc n rest,
  forallb is_decimal ds = true ->
  span_digits acc n (ds ++ rest) =
  span_digits (decimal_value acc ds) (n + List.length ds) rest.
Proof.
  induction ds as [|d ds IH]; intros acc n rest H.
  - simpl. rewrite Nat.add_0_r. reflexivity.
  - simpl in H. apply andb_true_iff in H. destruct H as [Hd Hds].
    unfold is_decimal in Hd. simpl.
    destruct (to_decimal d) as [v|]; [|discriminate].
    rewrite IH by exact Hds. f_equal. lia.
Qed.

Lemma span_digits_all : forall ds acc n,
  forallb is_decimal ds = true ->
  span_digits acc n ds = (decimal_value acc ds, (n + List.length ds)%nat, []).
Proof.
  intros ds acc n H. rewrite <- (app_nil_r ds) at 1.
  rewrite span_digits_app by exact H. reflexivity.
Qed.

Lemma int_of_digits : forall ds,
  digits ds ->
  int_of_text ds =
  if too_many_digits (List.length ds) then Raise ValueError
  else Ret (decimal_value 0 ds).
Proof.
  intros ds [Hne Hall]. unfold int_of_text.
  rewrite span_digits_all by exact Hall.
  destruct ds as [|d ds]; [contradiction|]. reflexivity.
Qed.

Lemma float_of_decimal : forall i f,
  digits i -> digits f ->
  float_of_text (i ++ str "." ++ f) = Ret (decimal_float i f).
Proof.
  intros i f [Hi1 Hi2] [Hf1 Hf2]. unfold float_of_text.
  rewrite span_digits_app by exact Hi2.
  change (str "." ++ f) with (46%N :: f).
  cbn [span_digits]. change (to_decimal 46%N) with (@None N). cbv iota.
  rewrite N.eqb_refl, span_digits_all by exact Hf2.
  destruct i as [|a i]; [contradiction|]. reflexivity.
Qed.

(** ** The parser, case by case *)

Lemma re_search_hand_number : forall s,
  re_search hand_number_pattern s = search hand_number_re s.
Proof.
  intros s. unfold re_search. rewrite hand_number_compiles. reflexivity.
Qed.

Lemma re_search_cash_game : forall s,
  re_search cash_game_pattern s = search cash_game_re s.
Proof.
  intros s. unfold re_search. rewrite cash_game_compiles. reflexivity.
Qed.

Lemma re_search_tournament : forall s,
  re_search tournament_pattern s = search tournament_re s.
Proof.
  intros s. unfold re_search. rewrite tournament_compiles. reflexivity.
Qed.

Lemma extract_hand_number_world : forall s w,
  snd (extract_hand_number s w) = w.
Proof.
  intros s w. unfold extract_hand_number.
  destruct (re_search hand_number_pattern s) as [m|]; [|reflexivity].
  unfold bind, lift, ret. destruct (int_of_text (group 1 m)); reflexivity.
Qed.

Lemma extract_blinds_world : forall s w, snd (extract_blinds s w) = w.
Proof.
  intros s w. unfold extract_blinds.
  destruct (re_search cash_game_pattern s) as [m|].
  - unfold bind, lift, ret.
    destruct (float_of_text (group 1 m)); [|reflexivity].
    destruct (float_of_text (group 2 m)); reflexivity.
  - destruct (re_search tournament_pattern s) as [m|]; [|reflexivity].
    unfold bind, lift, ret.
    destruct (int_of_text (group 1 m)); [|reflexivity].
    destruct (int_of_text (group 2 m)); reflexivity.
Qed.

(** When no hand number is found, or the number is zero. *)
Lemma parse_skips : forall s w hand_number,
  extract_hand_number s w = (Ret hand_number, w) ->
  truthy hand_number = false ->
  parse_hand_history s w = (Ret None, logged w WARNING HandNumberNotFound).
Proof.
  intros s w hn He Ht.
  unfold parse_hand_history, try_except, parse_body, bind.
  rewrite He, Ht. reflexivity.
Qed.

(** A record comes from a hand number that is not zero and from blinds
    that converted; the world is as it was. *)
Lemma parse_record_inv : forall s w r w',
  parse_hand_history s w = (Ret (Some r), w') ->
  exists n blinds,
    extract_hand_number s w = (Ret (Some n), w) /\
    n <> 0%Z /\
    extract_blinds s w = (Ret blinds, w) /\
    w' = w /\
    r = {| HandId := Some n;
           SmallBlind := fst blinds;
           BigBlind := snd blinds;
           RawHandHistory := s;
           GameType := game_type_of s;
           HandPlayed := hand_played_of s |}.
Proof.
  intros s w r w' H.
  unfold parse_hand_history, try_except, parse_body, bind in H.
  pose proof (extract_hand_number_world s w) as Hw1.
  destruct (extract_hand_number s w) as [[hn|e] w1]; simpl in Hw1; subst w1.
  - destruct (truthy hn) eqn:Ht; simpl in H.
    + pose proof (extract_blinds_world s w) as Hw2.
      destruct (extract_blinds s w) as [[bl|e] w2]; simpl in Hw2; subst w2.
      * unfold ret in H. injection H as <- <-.
        destruct hn as [n|]; [|discriminate].
        exists n, bl. repeat split.
        simpl in Ht. intros ->. discriminate.
      * unfold logging, raise in H. discriminate.
    + unfold logging, ret in H. discriminate.
  - unfold logging, raise in H. discriminate.
Qed.

Lemma search_hand_number_none : forall block,
  ~ hand_id_occurs block -> re_search hand_number_pattern block = None.
Proof.
  intros block H. rewrite re_search_hand_number. apply search_None.
  intros Hocc. apply H. apply hand_number_occurs. exact Hocc.
Qed.

(** What [re.search] hands to [int] for the hand number is a run of
    digits of the block. *)
Lemma search_hand_number_some : forall block m,
  re_search hand_number_pattern block = Some m ->
  exists ds, m = [ds] /\ digits ds /\ occurs ds block.
Proof.
  intros block m H. rewrite re_search_hand_number in H.
  destruct (search_sound _ _ H) as (pre & w & post & -> & Hm).
  apply hand_number_shape in Hm. destruct Hm as (ds & Hd & -> & ->).
  exists ds. split; [reflexivity|]. split; [exact Hd|].
  exists (pre ++ str "PokerStars Hand #"), (str ":" ++ post).
  rewrite <- !app_assoc. reflexivity.
Qed.

Lemma search_cash_game_some : forall block m,
  re_search cash_game_pattern block = Some m ->
  exists pre i1 f1 i2 f2 post,
    digits i1 /\ digits f1 /\ digits i2 /\ digits f2 /\
    block = pre ++ str "($" ++ (i1 ++ str "." ++ f1) ++ str "/$"
                ++ (i2 ++ str "." ++ f2) ++ post /\
    m = [i1 ++ str "." ++ f1; i2 ++ str "." ++ f2].
Proof.
  intros block m H. rewrite re_search_cash_game in H.
  destruct (search_sound _ _ H) as (pre & w & post & -> & Hm).
  apply cash_game_shape in Hm.
  destruct Hm as (i1 & f1 & i2 & f2 & H1 & H2 & H3 & H4 & -> & ->).
  exists pre, i1, f1, i2, f2, post.
  do 4 (split; [assumption|]).
  split; [|reflexivity]. rewrite <- !app_assoc. reflexivity.
Qed.

Lemma search_tournament_some : forall block m,
  re_search tournament_pattern block = Some m ->
  exists pre word sb bb post,
    word <> [] /\ forallb is_word word = true /\ digits sb /\ digits bb /\
    block = pre ++ str "Level " ++ word ++ str " (" ++ sb ++ str "/" ++ bb
                ++ str ")" ++ post /\
    m = [sb; bb].
Proof.
  intros block m H. rewrite re_search_tournament in H.
  destruct (search_sound _ _ H) as (pre & w & post & -> & Hm).
  apply tournament_shape in Hm.
  destruct Hm as (word & sb & bb & H1 & H2 & H3 & H4 & -> & ->).
  exists pre, word, sb, bb, post.
  do 4 (split; [assumption|]).
  split; [|reflexivity]. rewrite <- !app_assoc. reflexivity.
Qed.

Lemma search_cash_game_none : forall block,
  re_search cash_game_pattern block = None <-> ~ cash_stakes_occur block.
Proof.
  intros block. rewrite re_search_cash_game, search_None, cash_game_occurs.
  reflexivity.
Qed.


Lemma parse_skips_unmatched : forall block w,
  ~ hand_id_occurs block ->
  parse_hand_history block w =
  (Ret None, logged w WARNING HandNumberNotFound).
Proof.
  intros block w H. apply parse_skips with (hand_number := None).
  - unfold extract_hand_number.
    rewrite search_hand_number_none by exact H. reflexivity.
  - reflexivity.
Qed.

(** ** Properties of [parse_hand_history] *)

(** C2: for every block in which [PokerStars Hand #<digits>:] does not
    occur, [parse_hand_history] returns [None] and raises nothing; all it
    does besides is to log the warning of line 111. *)
Theorem parse_without_hand_id : forall block w,
  ~ hand_id_occurs block ->
  parse_hand_history block w =
  (Ret None, logged w WARNING HandNumberNotFound).
Proof.
  intros block w H. apply parse_skips_unmatched. exact H.
Qed.

(** C9: when the hand-identifier pattern is found but the digits it
    captured convert to zero, [parse_hand_history] returns [None] with the
    same warning as for a block without the pattern: line 110 tests the
    number, not the match.  So it is for every block that begins with
    [PokerStars Hand #0:]. *)
Theorem parse_zero_hand_number :
  (forall block w m,
      re_search hand_number_pattern block = Some m ->
      int_of_text (group 1 m) = Ret 0%Z ->
      parse_hand_history block w =
      (Ret None, logged w WARNING HandNumberNotFound)) /\
  (forall rest w,
      parse_hand_history (str "PokerStars Hand #0:" ++ rest) w =
      (Ret None, logged w WARNING HandNumberNotFound)).
Proof.
  assert (General : forall block w m,
    re_search hand_number_pattern block = Some m ->
    int_of_text (group 1 m) = Ret 0%Z ->
    parse_hand_history block w =
    (Ret None, logged w WARNING HandNumberNotFound)).
  { intros block w m Hm Hint.
    apply parse_skips with (hand_number := Some 0%Z).
    - unfold extract_hand_number. rewrite Hm.
      unfold bind, lift, ret. rewrite Hint. reflexivity.
    - reflexivity. }
  split; [exact General|].
  intros rest w. apply General with (m := [str "0"]).
  - rewrite re_search_hand_number. reflexivity.
  - reflexivity.
Qed.

(** C6: every record that [parse_hand_history] returns has a [HandId]
    that is an integer, not [None] (and not zero), and its
    [RawHandHistory] is the block as it was passed in. *)
Theorem parsed_hand_id_and_raw_text : forall block w r w',
  parse_hand_history block w = (Ret (Some r), w') ->
  (exists n, HandId r = Some n /\ n <> 0%Z) /\ RawHandHistory r = block.
Proof.
  intros block w r w' H.
  destruct (parse_record_inv _ _ H) as (n & bl & _ & Hn & _ & _ & ->).
  simpl. split; [|reflexivity]. exists n. split; [reflexivity | exact Hn].
Qed.

(** C3: in every record, [GameType] is ["Tournament"] exactly when the
    block contains the substring [Tournament], and ["Cash"] otherwise.
    Nothing else of the block enters: two blocks that agree on that
    substring get the same [GameType], whatever blinds were found. *)
Theorem game_type_by_substring : forall block w r w',
  parse_hand_history block w = (Ret (Some r), w') ->
  (GameType r = "Tournament"%string <-> occurs (str "Tournament") block) /\
  (GameType r = "Cash"%string <-> ~ occurs (str "Tournament") block) /\
  (forall block2 w2 r2 w2',
      parse_hand_history block2 w2 = (Ret (Some r2), w2') ->
      (occurs (str "Tournament") block <->
       occurs (str "Tournament") block2) ->
      GameType r2 = GameType r).
Proof.
  intros block w r w' H.
  destruct (parse_record_inv _ _ H) as (n & bl & _ & _ & _ & _ & ->).
  cbn [GameType]. unfold game_type_of.
  split; [|split].
  - rewrite <- contains_occurs.
    destruct (contains (str "Tournament") block); split; intros E;
      try reflexivity; discriminate.
  - rewrite <- contains_false_not_occurs.
    destruct (contains (str "Tournament") block); split; intros E;
      try reflexivity; discriminate.
  - intros block2 w2 r2 w2' H2 Hiff.
    destruct (parse_record_inv _ _ H2) as (n2 & bl2 & _ & _ & _ & _ & ->).
    cbn [GameType]. unfold game_type_of.
    rewrite <- !contains_occurs in Hiff.
    destruct (contains (str "Tournament") block);
      destruct (contains (str "Tournament") block2);
      try reflexivity; exfalso.
    + assert (false = true) by (apply Hiff; reflexivity). discriminate.
    + assert (false = true) by (apply Hiff; reflexivity). discriminate.
Qed.

(** C4: in every record, [HandPlayed] is ["N"] exactly when the block
    contains one of the two folded-before-Flop markers, and ["Y"]
    otherwise. *)
Theorem hand_played_by_markers : forall block w r w',
  parse_hand_history block w = (Ret (Some r), w') ->
  (HandPlayed r = "N"%string <->
   occurs (str "everyonedoes folded before Flop (didn't bet)") block \/
   occurs (str "everyonedoes (button) folded before Flop (didn't bet)")
     block) /\
  (HandPlayed r = "Y"%string <->
   ~ (occurs (str "everyonedoes folded before Flop (didn't bet)") block \/
      occurs (str "everyonedoes (button) folded before Flop (didn't bet)")
        block)).
Proof.
  intros block w r w' H.
  destruct (parse_record_inv _ _ H) as (n & bl & _ & _ & _ & _ & ->).
  cbn [HandPlayed]. unfold hand_played_of.
  fold folded_marker. fold folded_button_marker.
  rewrite <- !contains_occurs.
  destruct (contains folded_marker block);
    destruct (contains folded_button_marker block);
    (split; split; intros E; try reflexivity; try discriminate;
     try (left; reflexivity); try (right; reflexivity);
     try (destruct E; discriminate);
     try (intros [E'|E']; discriminate);
     try (exfalso; apply E; (left; reflexivity) || (right; reflexivity))).
Qed.

(** [parse_hand_history] always terminates, and the only way into its
    handler is a run of digits that [int] refuses for its length. *)
Lemma parse_returns_or_digit_limit : forall block w,
  (exists result w', parse_hand_history block w = (Ret result, w')) \/
  (exists ds,
      occurs ds block /\ digits ds /\
      too_many_digits (List.length ds) = true /\
      parse_hand_history block w =
      (Raise (Exception_ "Failed to parse hand history" ValueError),
       logged w ERROR (FailedToParse ValueError))).
Proof.
  intros block w.
  unfold parse_hand_history, try_except, parse_body, bind.
  unfold extract_hand_number.
  destruct (re_search hand_number_pattern block) as [m|] eqn:Hm.
  2:{ left. eexists. eexists. reflexivity. }
  destruct (search_hand_number_some _ Hm) as (ds & -> & Hd & Hocc).
  unfold group. cbn [nth Nat.sub]. unfold bind, lift, ret.
  rewrite int_of_digits by exact Hd.
  destruct (too_many_digits (List.length ds)) eqn:Hlim.
  { right. exists ds. repeat (split; [assumption|]). reflexivity. }
  destruct (truthy (Some (decimal_value 0 ds))); cbn [negb].
  2:{ left. eexists. eexists. reflexivity. }
  unfold extract_blinds.
  destruct (re_search cash_game_pattern block) as [mc|] eqn:Hcash.
  - destruct (search_cash_game_some _ Hcash)
      as (pre & i1 & f1 & i2 & f2 & post & H1 & H2 & H3 & H4 & Hb & ->).
    unfold group. cbn [nth Nat.sub]. unfold bind, lift, ret.
    rewrite !float_of_decimal by assumption.
    left. eexists. eexists. reflexivity.
  - destruct (re_search tournament_pattern block) as [mt|] eqn:Htour.
    2:{ left. eexists. eexists. reflexivity. }
    destruct (search_tournament_some _ Htour)
      as (pre & word & sb & bb & post & H1 & H2 & H3 & H4 & Hb & ->).
    unfold group. cbn [nth Nat.sub]. unfold bind, lift, ret.
    rewrite !int_of_digits by assumption.
    destruct (too_many_digits (List.length sb)) eqn:Hsb.
    { right. exists sb. split; [|repeat (split; [assumption|]); reflexivity].
      exists (pre ++ str "Level " ++ word ++ str " ("),
        (str "/" ++ bb ++ str ")" ++ post).
      rewrite Hb, <- !app_assoc. reflexivity. }
    destruct (too_many_digits (List.length bb)) eqn:Hbb.
    { right. exists bb. split; [|repeat (split; [assumption|]); reflexivity].
      exists (pre ++ str "Level " ++ word ++ str " (" ++ sb ++ str "/"),
        (str ")" ++ post).
      rewrite Hb, <- !app_assoc. reflexivity. }
    left. eexists. eexists. reflexivity.
Qed.


Lemma no_limit_within_limit :
  int_max_str_digits = 0%nat ->
  forall n, too_many_digits n = false.
Proof.
  intros H n. unfold too_many_digits. rewrite H.
  rewrite Nat.ltb_irrefl, andb_false_r. reflexivity.
Qed.

(** Without a limit on the digits, as before CPython 3.11, the handler is
    dead code. *)
Lemma parse_total_without_limit : forall block w,
  int_max_str_digits = 0%nat ->
  exists result w', parse_hand_history block w = (Ret result, w').
Proof.
  intros block w Hoff.
  destruct (parse_returns_or_digit_limit block w)
    as [Hret | (ds & _ & _ & Hmany & _)].
  - exact Hret.
  - rewrite no_limit_within_limit in Hmany by exact Hoff. discriminate.
Qed.


Lemma hand_id_absent_by_search : forall block,
  re_search hand_number_pattern block = None -> ~ hand_id_occurs block.
Proof.
  intros block H Hocc. rewrite re_search_hand_number in H.
  apply search_None in H. apply H. apply hand_number_occurs. exact Hocc.
Qed.

(** ** Properties of the splitter and the file loop *)

(** C5: the text is cut at the occurrences of ["\n\n\n"].  The text
    ["A\n\n\nB\n\n\nC"] gives the blocks [A], [B], [C]; a text without
    three consecutive newlines gives itself as the only block; and in
    general the blocks joined by the separator are the text again, and
    no block has three consecutive newlines in it. *)
Theorem split_at_triple_newlines :
  split block_separator
    (str "A" ++ block_separator ++ str "B" ++ block_separator ++ str "C")
  = [str "A"; str "B"; str "C"] /\
  (forall s, ~ occurs block_separator s -> split block_separator s = [s]) /\
  (forall s,
      join block_separator (split block_separator s) = s /\
      Forall (fun b => ~ occurs block_separator b)
        (split block_separator s)).
Proof.
  split; [reflexivity|]. split.
  - intros s H. apply contains_false_not_occurs in H.
    unfold split. rewrite split_go_no_separator by exact H. reflexivity.
  - intros s. split.
    + apply join_split. discriminate.
    + eapply Forall_impl; [|apply split_blocks_clean; discriminate].
      intros b Hb. apply contains_false_not_occurs. exact Hb.
Qed.

Lemma process_hand_returns : forall idx block w,
  exists w', process_hand idx block w = (Ret tt, w').
Proof.
  intros idx block w. unfold process_hand, try_except.
  match goal with |- context [match ?m w with _ => _ end] =>
    destruct (m w) as [[[]|e] w1] end.
  - exists w1. reflexivity.
  - eexists. reflexivity.
Qed.

Lemma for_enumerate_returns : forall blocks start w,
  exists w', for_enumerate process_hand start blocks w = (Ret tt, w').
Proof.
  induction blocks as [|b blocks IH]; intros start w.
  - exists w. reflexivity.
  - cbn [for_enumerate]. unfold bind.
    destruct (process_hand_returns start b w) as [w1 ->].
    apply IH.
Qed.

Lemma for_enumerate_app : forall blocks1 blocks2 start w,
  for_enumerate process_hand start (blocks1 ++ blocks2) w =
  for_enumerate process_hand (start + List.length blocks1) blocks2
    (snd (for_enumerate process_hand start blocks1 w)).
Proof.
  induction blocks1 as [|b blocks1 IH]; intros blocks2 start w.
  - simpl. rewrite Nat.add_0_r. reflexivity.
  - cbn [for_enumerate app]. unfold bind.
    destruct (process_hand_returns start b w) as [w1 ->].
    rewrite IH. simpl List.length. rewrite Nat.add_succ_r. reflexivity.
Qed.

(** A turn of the loop on a block that parses, with a server that takes
    the row. *)
Lemma process_hand_stores : forall idx block r w,
  record_of block r ->
  sql_accepts (table w) r = true ->
  exists n,
    HandId r = Some n /\
    process_hand idx block w =
    (Ret tt,
     {| log := log w ++ [(INFO, ProcessingHand idx);
                         (INFO, InsertedSuccessfully n)];
        table := table w ++ [r] |}).
Proof.
  intros idx block r w Hrec Hacc.
  destruct (parse_record_inv _ _ (Hrec w)) as (n & bl & _ & _ & _ & _ & Hr).
  exists n. split; [rewrite Hr; reflexivity|].
  unfold process_hand, try_except, bind, logging.
  rewrite Hrec.
  unfold insert_hand_into_db, try_except, insert_body.
  replace (HandId r) with (Some n) by (rewrite Hr; reflexivity).
  unfold bind, sql_insert. cbn [table log]. rewrite Hacc.
  unfold logging. cbn [table log]. rewrite <- app_assoc. reflexivity.
Qed.

(** A turn of the loop on a block without a hand identifier. *)
Lemma process_hand_skips : forall idx block w,
  ~ hand_id_occurs block ->
  process_hand idx block w =
  (Ret tt,
   {| log := log w ++ [(INFO, ProcessingHand idx);
                       (WARNING, HandNumberNotFound)];
      table := table w |}).
Proof.
  intros idx block w H.
  unfold process_hand, try_except, bind, logging.
  rewrite parse_skips_unmatched by exact H.
  unfold ret, logged. cbn [table log]. rewrite <- app_assoc. reflexivity.
Qed.

Lemma for_enumerate_stores : forall blocks records,
  Forall2 record_of blocks records ->
  (forall t r, In r records -> sql_accepts t r = true) ->
  forall start w,
  exists entries,
    for_enumerate process_hand start blocks w =
    (Ret tt, {| log := log w ++ entries; table := table w ++ records |}) /\
    filter is_skip_event entries = [].
Proof.
  induction 1 as [|b r blocks records Hrec Hall IH]; intros Hacc start w.
  - exists []. rewrite !app_nil_r. destruct w. split; reflexivity.
  - cbn [for_enumerate]. unfold bind.
    destruct (@process_hand_stores start b r w Hrec) as (n & Hn & ->).
    { apply Hacc. left. reflexivity. }
    destruct (IH (fun t r' Hin => Hacc t r' (or_intror Hin)) (S start)
                {| log := log w ++ [(INFO, ProcessingHand start);
                                    (INFO, InsertedSuccessfully n)];
                   table := table w ++ [r] |})
      as (entries & -> & Hskip).
    cbn [log table].
    exists ([(INFO, ProcessingHand start); (INFO, InsertedSuccessfully n)]
              ++ entries).
    rewrite <- !app_assoc. split; [reflexivity|].
    simpl. exact Hskip.
Qed.

(** C8: when the file is missing, [process_hand_history_file] logs the
    error of line 204 and returns normally: nothing is raised, no block
    is processed and the table is as it was. *)
Theorem missing_file_is_reported : forall filename w,
  read_file filename = Raise FileNotFoundError ->
  exists w',
    process_hand_history_file filename w = (Ret tt, w') /\
    table w' = table w /\
    log w' = log w ++ [(ERROR, FileNotFound filename)].
Proof.
  intros filename w Hread.
  unfold process_hand_history_file, try_except, process_body, bind, lift.
  rewrite Hread. unfold logging.
  eexists. split; [reflexivity|]. split; reflexivity.
Qed.

(** ** Further properties of the parser *)

Lemma extract_hand_number_pure : forall s w,
  extract_hand_number s w = (fst (extract_hand_number s empty_world), w).
Proof.
  intros s w. unfold extract_hand_number.
  destruct (re_search hand_number_pattern s) as [m|]; [|reflexivity].
  unfold bind, lift, ret. destruct (int_of_text (group 1 m)); reflexivity.
Qed.

Lemma extract_blinds_pure : forall s w,
  extract_blinds s w = (fst (extract_blinds s empty_world), w).
Proof.
  intros s w. unfold extract_blinds.
  destruct (re_search cash_game_pattern s) as [m|].
  - unfold bind, lift, ret.
    destruct (float_of_text (group 1 m)); [|reflexivity].
    destruct (float_of_text (group 2 m)); reflexivity.
  - destruct (re_search tournament_pattern s) as [m|]; [|reflexivity].
    unfold bind, lift, ret.
    destruct (int_of_text (group 1 m)); [|reflexivity].
    destruct (int_of_text (group 2 m)); reflexivity.
Qed.

(** A run of the parser: its answer, and the world with the lines that go
    with the answer. *)
Lemma parse_run : forall block w,
  parse_hand_history block w =
  (parse_result block,
   {| log := log w ++ parse_log (parse_result block); table := table w |}).
Proof.
  intros block w. unfold parse_result.
  unfold parse_hand_history, try_except, parse_body, bind.
  rewrite (extract_hand_number_pure block w).
  rewrite (extract_hand_number_pure block empty_world).
  destruct (fst (extract_hand_number block empty_world)) as [hn|e];
    cbn [fst snd].
  - destruct (truthy hn); cbn [negb].
    + rewrite (extract_blinds_pure block w).
      rewrite (extract_blinds_pure block empty_world).
      destruct (fst (extract_blinds block empty_world)) as [bl|e];
        cbn [fst snd].
      * unfold ret. cbn [fst parse_log]. rewrite app_nil_r.
        destruct w; reflexivity.
      * reflexivity.
    + reflexivity.
  - reflexivity.
Qed.

(** X1: parsing is a function of the block alone and leaves the table as
    it is; it adds no line to the log when it returns a record, and exactly
    one line otherwise (the warning of line 111 or the error of
    line 149). *)
Theorem parse_frame : forall block w,
  (forall w2, fst (parse_hand_history block w2)
              = fst (parse_hand_history block w)) /\
  table (snd (parse_hand_history block w)) = table w /\
  exists entries,
    log (snd (parse_hand_history block w)) = log w ++ entries /\
    ((exists r, fst (parse_hand_history block w) = Ret (Some r)) ->
     entries = []) /\
    ((forall r, fst (parse_hand_history block w) <> Ret (Some r)) ->
     List.length entries = 1%nat).
Proof.
  intros block w. split; [|split].
  - intros w2. rewrite !parse_run. reflexivity.
  - rewrite parse_run. reflexivity.
  - exists (parse_log (parse_result block)). rewrite parse_run.
    cbn [fst snd log]. split; [reflexivity|].
    pose proof (parse_returns_or_digit_limit block w) as Hcases.
    rewrite parse_run in Hcases.
    destruct (parse_result block) as [[r|]|e]; split; intros H.
    + reflexivity.
    + exfalso. apply (H r). reflexivity.
    + destruct H as [r Hr]. discriminate.
    + reflexivity.
    + destruct H as [r Hr]. discriminate.
    + destruct Hcases as [(res & w' & Hret) | (ds & _ & _ & _ & Hraise)].
      * discriminate.
      * injection Hraise as -> _. reflexivity.
Qed.

(** X2: a block is skipped ([None] is returned) in two cases only: the
    hand-identifier pattern does not occur in it, or the digits that
    [re.search] captured convert to zero. *)
Theorem parse_skip_iff : forall block w,
  fst (parse_hand_history block w) = Ret None <->
  (~ hand_id_occurs block \/
   exists m, re_search hand_number_pattern block = Some m /\
             int_of_text (group 1 m) = Ret 0%Z).
Proof.
  intros block w. split.
  - intros H.
    unfold parse_hand_history, try_except, parse_body, bind in H.
    unfold extract_hand_number in H.
    destruct (re_search hand_number_pattern block) as [m|] eqn:Hm.
    + right. exists m. split; [reflexivity|].
      unfold bind, lift, ret in H.
      destruct (int_of_text (group 1 m)) as [n|e]; [|discriminate].
      cbn [truthy] in H.
      destruct (n =? 0)%Z eqn:Hn.
      * apply Z.eqb_eq in Hn. rewrite Hn. reflexivity.
      * cbn [negb] in H.
        destruct (extract_blinds block w) as [[bl|e] w1]; discriminate.
    + left. apply hand_id_absent_by_search. exact Hm.
  - intros [Hno | (m & Hm & Hint)].
    + rewrite parse_skips_unmatched by exact Hno. reflexivity.
    + rewrite (@parse_skips block w (Some 0%Z)); [reflexivity | | reflexivity].
      unfold extract_hand_number. rewrite Hm.
      unfold bind, lift, ret. rewrite Hint. reflexivity.
Qed.

(** ** Which header decides *)

Lemma search_here : forall p s m,
  match_at p s = Some m -> search p s = Some m.
Proof.
  intros p s m H. destruct s; simpl; rewrite H; reflexivity.
Qed.

Lemma search_skip : forall p pre rest,
  (forall a b, pre = a ++ b -> b <> [] -> match_at p (b ++ rest) = None) ->
  search p (pre ++ rest) = search p rest.
Proof.
  intros p. induction pre as [|c pre IH]; intros rest H.
  - reflexivity.
  - pose proof (H [] (c :: pre) eq_refl ltac:(discriminate)) as H0.
    change ((c :: pre) ++ rest) with (c :: pre ++ rest) in *.
    cbn [search]. rewrite H0.
    apply IH. intros a b E Hb. apply (H (c :: a) b); [|exact Hb].
    rewrite E. reflexivity.
Qed.

Lemma not_digit_in_run : forall l x r,
  forallb is_decimal (l ++ x :: r) = true -> is_decimal x = false -> False.
Proof.
  intros l x r H Hx. rewrite forallb_app in H.
  apply andb_true_iff in H. destruct H as [_ H].
  simpl in H. rewrite Hx in H. discriminate.
Qed.

Lemma digit_run_unique : forall a b c d x y,
  forallb is_decimal a = true ->
  forallb is_decimal b = true ->
  is_decimal c = false ->
  is_decimal d = false ->
  a ++ c :: x = b ++ d :: y ->
  a = b.
Proof.
  induction a as [|u a IH]; intros b c d x y Ha Hb Hc Hd E.
  - destruct b as [|v b]; [reflexivity|].
    simpl in E. injection E as -> _.
    simpl in Hb. rewrite Hc in Hb. discriminate.
  - destruct b as [|v b].
    + simpl in E. injection E as -> _.
      simpl in Ha. rewrite Hd in Ha. discriminate.
    + simpl in E. injection E as -> E.
      simpl in Ha, Hb.
      apply andb_true_iff in Ha. apply andb_true_iff in Hb.
      destruct Ha as [_ Ha]. destruct Hb as [_ Hb].
      f_equal. exact (IH b c d x y Ha Hb Hc Hd E).
Qed.

Lemma header_match : forall ds post,
  digits ds ->
  match_at hand_number_re (str "PokerStars Hand #" ++ ds ++ str ":" ++ post)
  = Some [ds].
Proof.
  intros ds post Hd.
  assert (Hm : toks_match hand_number_re
                 (str "PokerStars Hand #" ++ ds ++ str ":") [ds]).
  { apply hand_number_shape. exists ds.
    split; [exact Hd|]. split; reflexivity. }
  destruct (match_at_complete post Hm) as [m E].
  rewrite <- !app_assoc in E. rewrite E.
  destruct (match_at_sound _ _ E) as (w & rest & Hs & Hw).
  apply hand_number_shape in Hw. destruct Hw as (ds' & Hd' & -> & ->).
  rewrite <- !app_assoc in Hs. apply app_inv_head in Hs.
  destruct Hd as [_ Hd]. destruct Hd' as [_ Hd'].
  assert (Eds : ds = ds').
  { exact (@digit_run_unique ds ds' (chr ":") (chr ":") post rest
             Hd Hd' eq_refl eq_refl Hs). }
  rewrite Eds. reflexivity.
Qed.

Lemma no_earlier_match : forall a b ds post,
  digits ds ->
  ~ hand_id_occurs ((a ++ b) ++ str "PokerStars Hand #" ++ ds) ->
  b <> [] ->
  match_at hand_number_re
    (b ++ str "PokerStars Hand #" ++ ds ++ str ":" ++ post) = None.
Proof.
  intros a b ds post [Hne Hds] Hno Hb.
  destruct (match_at hand_number_re _) as [m|] eqn:E; [|reflexivity].
  exfalso.
  destruct (match_at_sound _ _ E) as (w & rest & Hs & Hw).
  apply hand_number_shape in Hw. destruct Hw as (ds2 & [Hne2 Hds2] & -> & _).
  assert (Hs' : (b ++ str "PokerStars Hand #" ++ ds) ++ (str ":" ++ post)
                = (str "PokerStars Hand #" ++ ds2 ++ str ":") ++ rest).
  { rewrite <- Hs, <- !app_assoc. reflexivity. }
  assert (Inside : forall l,
    b ++ str "PokerStars Hand #" ++ ds
    = (str "PokerStars Hand #" ++ ds2 ++ str ":") ++ l -> False).
  { intros l El. apply Hno. exists a, ds2, l.
    split; [split; assumption|].
    rewrite <- app_assoc, El, <- !app_assoc. reflexivity. }
  apply app_eq_app in Hs'. destruct Hs' as [l [[El _] | [El Er]]].
  - exact (Inside l El).
  - destruct l as [|c l'].
    + apply (Inside []). rewrite app_nil_r in *. symmetry. exact El.
    + simpl in Er. injection Er as <- _.
      (* the match would run past the colon that ends [ds] *)
      assert (El' : str "PokerStars Hand #" ++ (ds2 ++ str ":")
                    = (b ++ str "PokerStars Hand ")
                      ++ (chr "#" :: ds ++ chr ":" :: l')).
      { rewrite El, <- !app_assoc. reflexivity. }
      assert (Tail : forall l3 X,
        ds2 ++ str ":" = l3 ++ chr "#" :: X -> X <> [] -> False).
      { intros l3 X EX HX.
        destruct (exists_last HX) as (X' & y & ->).
        change (l3 ++ chr "#" :: X' ++ [y])
          with (l3 ++ (chr "#" :: X') ++ [y]) in EX.
        rewrite app_assoc in EX. apply app_inj_tail in EX.
        destruct EX as [EX _]. rewrite EX in Hds2.
        eapply not_digit_in_run; [exact Hds2 | reflexivity]. }
      apply app_eq_app in El'. destruct El' as [l3 [[E1 E2] | [E1 E2]]].
      * assert (Hlen : List.length (str "PokerStars Hand #")
                       = List.length ((b ++ str "PokerStars Hand ") ++ l3))
          by (rewrite <- E1; reflexivity).
        rewrite !length_app in Hlen. simpl in Hlen.
        destruct b as [|b0 b']; [contradiction|].
        simpl in Hlen. destruct l3 as [|z l3]; [|simpl in Hlen; lia].
        simpl in E2.
        apply (Tail [] (ds ++ chr ":" :: l')).
        -- symmetry. exact E2.
        -- destruct ds; discriminate.
      * apply (Tail l3 (ds ++ chr ":" :: l')).
        -- exact E2.
        -- destruct ds; discriminate.
Qed.

Lemma first_header_search : forall pre ds post,
  digits ds ->
  ~ hand_id_occurs (pre ++ str "PokerStars Hand #" ++ ds) ->
  re_search hand_number_pattern
    (pre ++ str "PokerStars Hand #" ++ ds ++ str ":" ++ post) = Some [ds].
Proof.
  intros pre ds post Hd Hno. rewrite re_search_hand_number.
  rewrite search_skip.
  - apply search_here. apply header_match. exact Hd.
  - intros a b -> Hb. apply no_earlier_match with (a := a); assumption.
Qed.

(** X3: the first header decides.  When [PokerStars Hand #<digits>:]
    occurs in the block and no occurrence of the pattern ends before those
    digits do, it is these digits that [re.search] captures; every record
    made from the block has their value as its [HandId], leading zeros
    dropped, whatever headers follow. *)
Theorem first_header_decides : forall pre ds post w,
  digits ds ->
  ~ hand_id_occurs (pre ++ str "PokerStars Hand #" ++ ds) ->
  re_search hand_number_pattern
    (pre ++ str "PokerStars Hand #" ++ ds ++ str ":" ++ post) = Some [ds] /\
  (too_many_digits (List.length ds) = false ->
   extract_hand_number
     (pre ++ str "PokerStars Hand #" ++ ds ++ str ":" ++ post) w
   = (Ret (Some (decimal_value 0 ds)), w)) /\
  (forall r w',
      parse_hand_history
        (pre ++ str "PokerStars Hand #" ++ ds ++ str ":" ++ post) w
      = (Ret (Some r), w') ->
      HandId r = Some (decimal_value 0 ds)).
Proof.
  intros pre ds post w Hd Hno.
  pose proof (first_header_search pre post Hd Hno) as Hs.
  assert (Hex : extract_hand_number
                  (pre ++ str "PokerStars Hand #" ++ ds ++ str ":" ++ post) w
                = (if too_many_digits (List.length ds)
                   then Raise ValueError
                   else Ret (Some (decimal_value 0 ds)), w)).
  { unfold extract_hand_number. rewrite Hs.
    unfold group. cbn [nth Nat.sub]. unfold bind, lift, ret.
    rewrite int_of_digits by exact Hd.
    destruct (too_many_digits (List.length ds)); reflexivity. }
  split; [exact Hs|]. split.
  - intros Hlim. rewrite Hex, Hlim. reflexivity.
  - intros r w' Hr.
    destruct (parse_record_inv _ _ Hr) as (n & bl & Hn & _ & _ & _ & ->).
    cbn [HandId]. rewrite Hex in Hn.
    destruct (too_many_digits (List.length ds)); [discriminate|].
    injection Hn as <-. reflexivity.
Qed.

(** ** The numbers of a record *)

Lemma shr_1_nonneg : forall mrs,
  (0 <= SpecFloat.shr_m mrs)%Z ->
  (0 <= SpecFloat.shr_m (SpecFloat.shr_1 mrs))%Z.
Proof.
  intros [m r s0] H. cbn [SpecFloat.shr_m] in H. unfold SpecFloat.shr_1.
  destruct m as [|[q|q|]|q]; cbn [SpecFloat.shr_m]; lia.
Qed.

Lemma iter_shr_1_nonneg : forall n mrs,
  (0 <= SpecFloat.shr_m mrs)%Z ->
  (0 <= SpecFloat.shr_m (SpecFloat.iter_pos SpecFloat.shr_1 n mrs))%Z.
Proof.
  induction n as [n IH|n IH|]; intros mrs H; cbn [SpecFloat.iter_pos].
  - apply IH, IH, shr_1_nonneg, H.
  - apply IH, IH, H.
  - apply shr_1_nonneg, H.
Qed.

Lemma shr_fexp_nonneg : forall m e l,
  (0 <= m)%Z ->
  (0 <= SpecFloat.shr_m (fst (SpecFloat.shr_fexp 53 1024 m e l)))%Z.
Proof.
  intros m e l H. unfold SpecFloat.shr_fexp, SpecFloat.shr.
  assert (H0 : (0 <= SpecFloat.shr_m (SpecFloat.shr_record_of_loc m l))%Z).
  { destruct l as [|[]]; exact H. }
  destruct (SpecFloat.fexp 53 1024 (SpecFloat.Zdigits2 m + e) - e)%Z;
    cbn [fst]; [exact H0 | apply iter_shr_1_nonneg; exact H0 | exact H0].
Qed.

Lemma round_nearest_even_nonneg : forall m l,
  (0 <= m)%Z -> (0 <= SpecFloat.round_nearest_even m l)%Z.
Proof.
  intros m l H. unfold SpecFloat.round_nearest_even.
  destruct l as [|[]]; try lia. destruct (Z.even m); lia.
Qed.

Lemma binary_round_aux_nonneg : forall m e l,
  (0 <= m)%Z ->
  float_nonneg (SpecFloat.binary_round_aux 53 1024 false m e l).
Proof.
  intros m e l H. unfold SpecFloat.binary_round_aux.
  pose proof (shr_fexp_nonneg e l H) as H1.
  destruct (SpecFloat.shr_fexp 53 1024 m e l) as [mrs1 e1]. cbn [fst] in H1.
  pose proof (shr_fexp_nonneg e1 SpecFloat.loc_Exact
                (round_nearest_even_nonneg
                   (SpecFloat.loc_of_shr_record mrs1) H1)) as H2.
  destruct (SpecFloat.shr_fexp 53 1024 _ e1 SpecFloat.loc_Exact)
    as [mrs2 e2].
  cbn [fst] in H2.
  destruct (SpecFloat.shr_m mrs2) as [|q|q].
  - reflexivity.
  - destruct (e2 <=? 1024 - 53)%Z; reflexivity.
  - lia.
Qed.

(** A quotient of numbers that are not negative rounds to a float that is
    not negative, never to a NaN. *)
Lemma binary64_of_ratio_nonneg : forall n d,
  (0 <= n)%Z -> float_nonneg (binary64_of_ratio n d).
Proof.
  intros n d Hn. unfold binary64_of_ratio.
  destruct n as [|p|p]; [reflexivity | | lia].
  unfold SpecFloat.SFdiv, SpecFloat.SFdiv_core_binary.
  match goal with
  | |- context [Z.div_eucl ?a ?b] =>
      set (m' := a);
      assert (Hm : (0 <= m')%Z);
      [| pose proof (Z.div_pos m' b Hm ltac:(lia)) as Hq;
         unfold Z.div in Hq;
         destruct (Z.div_eucl m' b) as [q r] ]
  end.
  - subst m'.
    match goal with
    | |- (0 <= match ?s with _ => _ end)%Z => destruct s
    end; try lia.
    apply Z.shiftl_nonneg. lia.
  - cbn [xorb]. apply binary_round_aux_nonneg. exact Hq.
Qed.

Lemma decimal_value_nonneg : forall ds acc,
  (0 <= acc)%Z -> (0 <= decimal_value acc ds)%Z.
Proof.
  induction ds as [|d ds IH]; intros acc Hacc; cbn [decimal_value].
  - exact Hacc.
  - destruct (to_decimal d) as [v|]; [|exact Hacc].
    apply IH. lia.
Qed.

Lemma extract_blinds_cases : forall s w blinds,
  extract_blinds s w = (Ret blinds, w) ->
  (exists i1 f1 i2 f2,
      blinds = (Some (PyFloat (decimal_float i1 f1)),
                Some (PyFloat (decimal_float i2 f2)))) \/
  (exists sb bb,
      blinds = (Some (PyInt (decimal_value 0 sb)),
                Some (PyInt (decimal_value 0 bb)))) \/
  blinds = (None, None).
Proof.
  intros s w bl H. unfold extract_blinds in H.
  destruct (re_search cash_game_pattern s) as [m|] eqn:Hcash.
  - destruct (search_cash_game_some _ Hcash)
      as (pre & i1 & f1 & i2 & f2 & post & H1 & H2 & H3 & H4 & _ & ->).
    unfold group in H. cbn [nth Nat.sub] in H. unfold bind, lift, ret in H.
    rewrite !float_of_decimal in H by assumption.
    injection H as <-. left. exists i1, f1, i2, f2. reflexivity.
  - destruct (re_search tournament_pattern s) as [m|] eqn:Htour.
    + destruct (search_tournament_some _ Htour)
        as (pre & word & sb & bb & post & _ & _ & H3 & H4 & _ & ->).
      unfold group in H. cbn [nth Nat.sub] in H. unfold bind, lift, ret in H.
      rewrite !int_of_digits in H by assumption.
      destruct (too_many_digits (List.length sb)); [discriminate|].
      destruct (too_many_digits (List.length bb)); [discriminate|].
      injection H as <-. right. left. exists sb, bb. reflexivity.
    + unfold ret in H. injection H as <-. right. right. reflexivity.
Qed.

(** X4: in every record the [HandId] is a positive integer, and the two
    blinds are of one kind: both [None], both floats or both integers,
    never a mix, and never negative. *)
Theorem record_numbers : forall block w r w',
  parse_hand_history block w = (Ret (Some r), w') ->
  (exists n, HandId r = Some n /\ (0 < n)%Z) /\
  ((SmallBlind r = None /\ BigBlind r = None) \/
   (exists q1 q2,
       SmallBlind r = Some (PyFloat q1) /\ BigBlind r = Some (PyFloat q2) /\
       float_nonneg q1 /\ float_nonneg q2) \/
   (exists z1 z2,
       SmallBlind r = Some (PyInt z1) /\ BigBlind r = Some (PyInt z2) /\
       (0 <= z1)%Z /\ (0 <= z2)%Z)).
Proof.
  intros block w r w' H.
  destruct (parse_record_inv _ _ H) as (n & bl & Hn & Hnz & Hbl & _ & ->).
  cbn [HandId SmallBlind BigBlind]. split.
  - exists n. split; [reflexivity|].
    unfold extract_hand_number in Hn.
    destruct (re_search hand_number_pattern block) as [m|] eqn:Hm;
      [|discriminate].
    destruct (search_hand_number_some _ Hm) as (ds & -> & Hd & _).
    unfold group in Hn. cbn [nth Nat.sub] in Hn.
    unfold bind, lift, ret in Hn. rewrite int_of_digits in Hn by exact Hd.
    destruct (too_many_digits (List.length ds)); [discriminate|].
    injection Hn as <-.
    pose proof (@decimal_value_nonneg ds 0%Z ltac:(lia)). lia.
  - destruct (extract_blinds_cases _ Hbl)
      as [(i1 & f1 & i2 & f2 & ->) | [(sb & bb & ->) | ->]]; cbn [fst snd].
    + right. left. eexists. eexists.
      split; [reflexivity|]. split; [reflexivity|].
      unfold decimal_float.
      split; apply binary64_of_ratio_nonneg;
        apply decimal_value_nonneg; apply decimal_value_nonneg; lia.
    + right. right. eexists. eexists.
      split; [reflexivity|]. split; [reflexivity|].
      split; apply decimal_value_nonneg; lia.
    + left. split; reflexivity.
Qed.

(** ** Further properties of the database call and the file loop *)

(** A run of [insert_hand_into_db], by the [HandId] and the server. *)
Lemma insert_run : forall r w,
  insert_hand_into_db r w =
  match HandId r with
  | None => (Ret tt, logged w ERROR SkippingNullHandId)
  | Some n =>
      if sql_accepts (table w) r
      then (Ret tt, {| log := log w ++ [(INFO, InsertedSuccessfully n)];
                       table := table w ++ [r] |})
      else (Raise (Exception_ "Failed to insert hand into database"
                     DatabaseError),
            logged w ERROR (FailedToInsert (Some n) DatabaseError))
  end.
Proof.
  intros r w. unfold insert_hand_into_db, try_except, insert_body.
  destruct (HandId r) as [n|]; [|reflexivity].
  unfold bind, sql_insert. destruct (sql_accepts (table w) r); reflexivity.
Qed.

(** X5: [insert_hand_into_db] either appends the row at the end of the
    table and returns, which takes a [HandId] that is not [None] and a
    server that accepts, or leaves the table as it was.  A row whose
    [HandId] is [None] is never sent, whatever the server would answer: the
    call logs and returns.  A row the server refuses makes the call raise
    the wrapped error. *)
Theorem insert_appends_or_leaves : forall r w,
  (exists n,
      HandId r = Some n /\ sql_accepts (table w) r = true /\
      fst (insert_hand_into_db r w) = Ret tt /\
      table (snd (insert_hand_into_db r w)) = table w ++ [r]) \/
  (HandId r = None /\
   fst (insert_hand_into_db r w) = Ret tt /\
   table (snd (insert_hand_into_db r w)) = table w) \/
  (HandId r <> None /\ sql_accepts (table w) r = false /\
   fst (insert_hand_into_db r w)
   = Raise (Exception_ "Failed to insert hand into database" DatabaseError) /\
   table (snd (insert_hand_into_db r w)) = table w).
Proof.
  intros r w. rewrite insert_run.
  destruct (HandId r) as [n|] eqn:Hid.
  - destruct (sql_accepts (table w) r) eqn:Hacc.
    + left. exists n. repeat split.
    + right. right. repeat split. discriminate.
  - right. left. repeat split.
Qed.

(** A turn of the loop always returns; its effect is given by [turn_rows]
    and [turn_log]. *)
Lemma process_hand_run : forall idx block w,
  process_hand idx block w =
  (Ret tt,
   {| log := log w ++ (INFO, ProcessingHand idx)
                        :: turn_log idx (table w) block;
      table := table w ++ turn_rows (table w) block |}).
Proof.
  intros idx block w.
  unfold process_hand, try_except, bind, logging.
  rewrite parse_run. cbn [log table]. unfold turn_log, turn_rows.
  destruct (parse_result block) as [[r|]|e].
  - rewrite insert_run. cbn [log table parse_log].
    rewrite app_nil_r.
    destruct (HandId r) as [n|].
    + destruct (sql_accepts (table w) r).
      * rewrite <- app_assoc. reflexivity.
      * unfold logged. cbn [log table].
        rewrite app_nil_r, <- !app_assoc. reflexivity.
    + unfold logged. cbn [log table].
      rewrite app_nil_r, <- !app_assoc. reflexivity.
  - unfold ret. cbn [parse_log log table].
    rewrite app_nil_r, <- !app_assoc. reflexivity.
  - cbn [log table]. rewrite app_nil_r, <- !app_assoc. reflexivity.
Qed.

Lemma for_enumerate_run : forall blocks start w,
  for_enumerate process_hand start blocks w =
  (Ret tt,
   {| log := log w ++ loop_log start (table w) blocks;
      table := table w ++ loop_rows (table w) blocks |}).
Proof.
  induction blocks as [|b blocks IH]; intros start w.
  - simpl. unfold ret. rewrite !app_nil_r. destruct w; reflexivity.
  - cbn [for_enumerate loop_log loop_rows]. unfold bind.
    rewrite process_hand_run, IH. cbn [log table].
    rewrite <- !app_assoc. reflexivity.
Qed.

(** Once the file is read, the call returns, and the loop says what it
    did. *)
Lemma file_run : forall filename content w,
  read_file filename = Ret content ->
  process_hand_history_file filename w =
  (Ret tt,
   {| log := log w
             ++ loop_log 1 (table w) (split block_separator content);
      table := table w
               ++ loop_rows (table w) (split block_separator content) |}).
Proof.
  intros filename content w Hread.
  unfold process_hand_history_file, try_except, process_body, bind, lift.
  rewrite Hread, for_enumerate_run. reflexivity.
Qed.

Lemma parse_result_record : forall block r,
  parse_result block = Ret (Some r) -> record_of block r.
Proof.
  intros block r H w. rewrite parse_run, H. cbn [parse_log].
  rewrite app_nil_r. destruct w; reflexivity.
Qed.

Lemma parse_result_id : forall block r,
  parse_result block = Ret (Some r) ->
  exists n, HandId r = Some n /\ n <> 0%Z /\ RawHandHistory r = block.
Proof.
  intros block r H.
  pose proof (@parse_result_record block r H empty_world) as Hp.
  destruct (parse_record_inv _ _ Hp) as (n & bl & _ & Hn & _ & _ & ->).
  exists n. repeat split. exact Hn.
Qed.

Lemma turn_rows_length : forall t block,
  (List.length (turn_rows t block) <= 1)%nat.
Proof.
  intros t block. unfold turn_rows.
  destruct (parse_result block) as [[r|]|e]; simpl; try lia.
  destruct (HandId r); simpl; try lia.
  destruct (sql_accepts t r); simpl; lia.
Qed.

Lemma turn_rows_inv : forall t block r,
  In r (turn_rows t block) ->
  parse_result block = Ret (Some r) /\ sql_accepts t r = true.
Proof.
  intros t block r H. unfold turn_rows in H.
  destruct (parse_result block) as [[r0|]|e]; try contradiction.
  destruct (HandId r0); try contradiction.
  destruct (sql_accepts t r0) eqn:Hacc; try contradiction.
  destruct H as [<-|[]]. split; [reflexivity | exact Hacc].
Qed.

Lemma loop_rows_length : forall blocks t,
  (List.length (loop_rows t blocks) <= List.length blocks)%nat.
Proof.
  induction blocks as [|b blocks IH]; intros t; simpl.
  - lia.
  - rewrite length_app.
    pose proof (turn_rows_length t b).
    pose proof (IH (t ++ turn_rows t b)). lia.
Qed.

Lemma loop_rows_inv : forall blocks t r,
  In r (loop_rows t blocks) ->
  exists b t', In b blocks /\ parse_result b = Ret (Some r) /\
               sql_accepts t' r = true.
Proof.
  induction blocks as [|b blocks IH]; intros t r H; simpl in H.
  - contradiction.
  - apply in_app_or in H. destruct H as [H|H].
    + destruct (turn_rows_inv _ _ _ H) as [Hp Hacc].
      exists b, t. split; [left; reflexivity|]. split; assumption.
    + destruct (IH _ _ H) as (b' & t' & Hin & Hp & Hacc).
      exists b', t'. split; [right; exact Hin|]. split; assumption.
Qed.


Lemma loop_rows_rejecting : forall blocks t,
  (forall t' r, sql_accepts t' r = false) ->
  loop_rows t blocks = [].
Proof.
  induction blocks as [|b blocks IH]; intros t Hrej; simpl.
  - reflexivity.
  - rewrite IH by exact Hrej. rewrite app_nil_r. unfold turn_rows.
    destruct (parse_result b) as [[r|]|e]; try reflexivity.
    destruct (HandId r); [|reflexivity]. rewrite Hrej. reflexivity.
Qed.

Lemma processing_indices_app : forall a b,
  processing_indices (a ++ b) = processing_indices a ++ processing_indices b.
Proof. intros a b. apply flat_map_app. Qed.

Lemma turn_log_no_index : forall idx t block,
  processing_indices (turn_log idx t block) = [].
Proof.
  intros idx t block. unfold turn_log.
  destruct (parse_result block) as [[r|]|e].
  - destruct (HandId r); [|reflexivity].
    destruct (sql_accepts t r); reflexivity.
  - reflexivity.
  - destruct e; reflexivity.
Qed.

Lemma loop_log_indices : forall blocks idx t,
  processing_indices (loop_log idx t blocks) = seq idx (List.length blocks).
Proof.
  induction blocks as [|b blocks IH]; intros idx t.
  - reflexivity.
  - cbn [loop_log List.length seq].
    change ((INFO, ProcessingHand idx)
              :: turn_log idx t b
                   ++ loop_log (S idx) (t ++ turn_rows t b) blocks)
      with ([(INFO, ProcessingHand idx)]
              ++ turn_log idx t b
              ++ loop_log (S idx) (t ++ turn_rows t b) blocks).
    rewrite !processing_indices_app, turn_log_no_index, IH. reflexivity.
Qed.

Lemma in_join_occurs : forall sep blocks b,
  In b blocks -> occurs b (join sep blocks).
Proof.
  intros sep. induction blocks as [|b0 blocks IH]; intros b H.
  - contradiction.
  - destruct blocks as [|b1 blocks].
    + destruct H as [<-|[]]. exists [], []. simpl. rewrite app_nil_r.
      reflexivity.
    + change (join sep (b0 :: b1 :: blocks))
        with (b0 ++ sep ++ join sep (b1 :: blocks)).
      destruct H as [<-|H].
      * exists [], (sep ++ join sep (b1 :: blocks)). reflexivity.
      * destruct (IH b H) as (pre & post & E).
        exists (b0 ++ sep ++ pre), post. rewrite E, <- !app_assoc.
        reflexivity.
Qed.

Lemma block_occurs_in_text : forall content b,
  In b (split block_separator content) -> occurs b content.
Proof.
  intros content b H.
  rewrite <- (@join_split block_separator content) by discriminate.
  apply in_join_occurs. exact H.
Qed.

Lemma hand_id_occurs_within : forall b s,
  occurs b s -> hand_id_occurs b -> hand_id_occurs s.
Proof.
  intros b s (pre & post & ->) (p & ds & q & Hd & ->).
  exists (pre ++ p), ds, (q ++ post). split; [exact Hd|].
  rewrite <- !app_assoc. reflexivity.
Qed.

Lemma loop_without_hand_id : forall blocks idx t,
  Forall (fun b => ~ hand_id_occurs b) blocks ->
  loop_rows t blocks = [] /\
  List.length (filter is_skip_event (loop_log idx t blocks))
  = List.length blocks.
Proof.
  induction blocks as [|b blocks IH]; intros idx t H.
  - split; reflexivity.
  - inversion H as [|? ? Hb Hrest]; subst.
    assert (Hp : parse_result b = Ret None).
    { unfold parse_result. rewrite parse_skips_unmatched by exact Hb.
      reflexivity. }
    cbn [loop_rows loop_log]. unfold turn_rows, turn_log. rewrite Hp.
    cbn [app]. rewrite app_nil_r.
    destruct (IH (S idx) t Hrest) as [-> Hlen].
    split; [reflexivity|].
    cbn [filter is_skip_event List.length]. rewrite Hlen. reflexivity.
Qed.

(** X6: whatever the server answers, the file call never touches the rows
    that were in the table: it only appends.  Each row it appends is the
    record of one of the blocks of the file, accepted by the server; its
    [HandId] is a positive integer and its [RawHandHistory] is that block,
    which has no three consecutive newlines in it.  There are at most as
    many new rows as blocks. *)
Theorem file_rows_come_from_blocks : forall filename content w,
  read_file filename = Ret content ->
  exists added entries,
    process_hand_history_file filename w =
    (Ret tt, {| log := log w ++ entries; table := table w ++ added |}) /\
    (List.length added
     <= List.length (split block_separator content))%nat /\
    Forall (fun r =>
              exists b n t,
                In b (split block_separator content) /\
                record_of b r /\
                HandId r = Some n /\ n <> 0%Z /\
                RawHandHistory r = b /\
                ~ occurs block_separator b /\
                sql_accepts t r = true) added.
Proof.
  intros filename content w Hread.
  exists (loop_rows (table w) (split block_separator content)),
    (loop_log 1 (table w) (split block_separator content)).
  split; [apply file_run; exact Hread|].
  split; [apply loop_rows_length|].
  apply Forall_forall. intros r Hin.
  destruct (loop_rows_inv _ _ _ Hin) as (b & t & Hb & Hp & Hacc).
  destruct (@parse_result_id b r Hp) as (n & Hid & Hn & Hraw).
  exists b, n, t. split; [exact Hb|].
  split; [apply parse_result_record; exact Hp|].
  split; [exact Hid|]. split; [exact Hn|]. split; [exact Hraw|].
  split; [|exact Hacc].
  apply contains_false_not_occurs.
  pose proof (@split_blocks_clean block_separator content
                ltac:(discriminate)) as Hclean.
  rewrite Forall_forall in Hclean. apply Hclean. exact Hb.
Qed.


(** X8: with a server that refuses every row, the file call still returns
    normally and the table is as it was. *)
Theorem file_with_refusing_server : forall filename content w,
  (forall t r, sql_accepts t r = false) ->
  read_file filename = Ret content ->
  fst (process_hand_history_file filename w) = Ret tt /\
  table (snd (process_hand_history_file filename w)) = table w.
Proof.
  intros filename content w Hrej Hread.
  rewrite (@file_run filename content w Hread).
  rewrite loop_rows_rejecting by exact Hrej.
  cbn [fst snd table]. rewrite app_nil_r. split; reflexivity.
Qed.

(** X9: every block of the file gets its turn, once and in order: the
    "Processing hand" lines the call logs are numbered 1, 2, ... up to the
    number of blocks, whatever happens in the turns. *)
Theorem file_visits_every_block : forall filename content w,
  read_file filename = Ret content ->
  exists entries,
    log (snd (process_hand_history_file filename w)) = log w ++ entries /\
    processing_indices entries
    = seq 1 (List.length (split block_separator content)).
Proof.
  intros filename content w Hread.
  exists (loop_log 1 (table w) (split block_separator content)).
  rewrite (@file_run filename content w Hread). cbn [snd log].
  split; [reflexivity | apply loop_log_indices].
Qed.

(** X10: the file call raises exactly when reading the file fails with
    something other than [FileNotFoundError]; it then logs the failure and
    raises it wrapped, and the table is as it was. *)
Theorem file_raises_iff_read_error : forall filename w x,
  fst (process_hand_history_file filename w) = Raise x <->
  exists e,
    read_file filename = Raise e /\ e <> FileNotFoundError /\
    x = Exception_ "Failed to process hand history file" e /\
    snd (process_hand_history_file filename w)
    = logged w ERROR (FailedToProcessFile e).
Proof.
  intros filename w x. split.
  - intros H. destruct (read_file filename) as [content|e] eqn:Hread.
    + rewrite (@file_run filename content w Hread) in H. discriminate.
    + exists e. split; [reflexivity|].
      unfold process_hand_history_file, try_except, process_body, bind, lift
        in *.
      rewrite Hread in *.
      destruct e; cbn in H |- *; try discriminate;
        (split; [discriminate|]);
        (split; [injection H as <-; reflexivity | reflexivity]).
  - intros (e & Hread & Hne & -> & _).
    unfold process_hand_history_file, try_except, process_body, bind, lift.
    rewrite Hread. destruct e; try reflexivity. contradiction.
Qed.

(** X11: a file in which [PokerStars Hand #<digits>:] occurs nowhere adds
    no row: every block is skipped with the warning of line 111, one
    warning for each block. *)
Theorem file_without_hand_id : forall filename content w,
  read_file filename = Ret content ->
  ~ hand_id_occurs content ->
  exists entries,
    process_hand_history_file filename w =
    (Ret tt, {| log := log w ++ entries; table := table w |}) /\
    List.length (filter is_skip_event entries)
    = List.length (split block_separator content).
Proof.
  intros filename content w Hread Hno.
  assert (Hall : Forall (fun b => ~ hand_id_occurs b)
                   (split block_separator content)).
  { apply Forall_forall. intros b Hb Hocc. apply Hno.
    eapply hand_id_occurs_within; [|exact Hocc].
    apply block_occurs_in_text. exact Hb. }
  destruct (@loop_without_hand_id (split block_separator content) 1%nat
              (table w) Hall) as [Hrows Hlen].
  exists (loop_log 1 (table w) (split block_separator content)).
  rewrite (@file_run filename content w Hread), Hrows, app_nil_r.
  split; [reflexivity | exact Hlen].
Qed.

(** ** Splitting what was joined *)

Lemma is_prefix_separator_extend : forall x b,
  x <> [] ->
  is_prefix block_separator (x ++ [newline; newline]) = false ->
  is_prefix block_separator (x ++ block_separator ++ b) = false.
Proof.
  intros x b Hx H. unfold block_separator in *.
  destruct x as [|c [|d [|e x]]]; [contradiction| | |];
    cbn [app is_prefix] in *.
  - destruct (newline =? c)%N; [|reflexivity].
    rewrite N.eqb_refl in *. simpl in *. exact H.
  - destruct (newline =? c)%N; [|reflexivity].
    destruct (newline =? d)%N; [|reflexivity].
    rewrite N.eqb_refl in *. simpl in *. exact H.
  - exact H.
Qed.

Lemma split_go_first : forall a cur b,
  contains block_separator (a ++ [newline; newline]) = false ->
  split_go block_separator 0 cur (a ++ block_separator ++ b)
  = (rev cur ++ a) :: split_go block_separator 0 [] b.
Proof.
  induction a as [|c a IH]; intros cur b H.
  - rewrite app_nil_r. reflexivity.
  - cbn [contains] in H. apply orb_false_iff in H. destruct H as [Hp Hc].
    change ((c :: a) ++ block_separator ++ b)
      with (c :: a ++ block_separator ++ b).
    cbn [split_go].
    change (c :: a ++ block_separator ++ b)
      with ((c :: a) ++ block_separator ++ b).
    rewrite is_prefix_separator_extend by (discriminate || exact Hp).
    rewrite IH by exact Hc. simpl. rewrite <- app_assoc. reflexivity.
Qed.

(** X12: splitting undoes joining.  When no block has three consecutive
    newlines in it and none but the last would gain them from two more
    newlines at its end, the blocks joined by ["\n\n\n"] split into the
    same blocks again. *)
Theorem split_join_round_trip : forall blocks last_block,
  Forall (fun b => ~ occurs block_separator (b ++ [newline; newline]))
    blocks ->
  ~ occurs block_separator last_block ->
  split block_separator (join block_separator (blocks ++ [last_block]))
  = blocks ++ [last_block].
Proof.
  induction blocks as [|b blocks IH]; intros last_block Hall Hlast.
  - simpl. apply contains_false_not_occurs in Hlast.
    unfold split. rewrite split_go_no_separator by exact Hlast. reflexivity.
  - inversion Hall as [|? ? Hb Hrest]; subst.
    change ((b :: blocks) ++ [last_block])
      with (b :: (blocks ++ [last_block])).
    rewrite join_cons by (destruct blocks; discriminate).
    unfold split. apply contains_false_not_occurs in Hb.
    rewrite split_go_first by exact Hb.
    simpl rev. simpl app at 1. f_equal.
    apply IH; assumption.
Qed.

(** ** The constructor *)




(** ** Which stakes decide *)

(** A repetition takes the whole run when what follows the run is not in
    the class and the rest of the pattern goes on from there. *)
Lemma greedy_longest : forall (R : Type) k (next : text -> text -> option R)
                              xs acc rest r,
  xs <> [] ->
  forallb (cls_ok k) xs = true ->
  (forall y rest', rest = y :: rest' -> cls_ok k y = false) ->
  next (rev xs ++ acc) rest = Some r ->
  greedy k next acc (xs ++ rest) = Some r.
Proof.
  intros R k next.
  induction xs as [|x xs IH]; intros acc rest r Hne Hall Hstop Hk.
  - contradiction.
  - simpl in Hall. apply andb_true_iff in Hall. destruct Hall as [Hx Hall].
    simpl app. cbn [greedy]. rewrite Hx.
    destruct xs as [|y xs].
    + simpl app. simpl in Hk.
      assert (Hnone : greedy k next (x :: acc) rest = None).
      { destruct rest as [|z rest']; [reflexivity|].
        cbn [greedy]. rewrite (Hstop z rest' eq_refl). reflexivity. }
      rewrite Hnone. exact Hk.
    + rewrite (IH (x :: acc) rest r); [reflexivity | discriminate | exact Hall
                                       | exact Hstop |].
      simpl in Hk |- *. rewrite <- !app_assoc in *. exact Hk.
Qed.

Lemma m_toks_literal : forall (R : Type) l p
                              (k : list text -> text -> option R) gs rest,
  m_toks (map (fun a => Atom (One (CChar (chr a)))) l ++ p) k gs
    (map chr l ++ rest)
  = m_toks p k gs rest.
Proof.
  intros R. induction l as [|a l IH]; intros p k gs rest.
  - reflexivity.
  - simpl map. simpl app. cbn [m_toks m_atoms cls_ok].
    rewrite N.eqb_refl. apply IH.
Qed.

Lemma m_atoms_decimal_number : forall (R : Type)
                                      (k : text -> text -> option R)
                                      i f acc rest r,
  digits i -> digits f ->
  (forall y rest', rest = y :: rest' -> is_decimal y = false) ->
  k (rev (i ++ str "." ++ f) ++ acc) rest = Some r ->
  m_atoms decimal_number k acc (i ++ str "." ++ f ++ rest) = Some r.
Proof.
  intros R k i f acc rest r [Hi1 Hi2] [Hf1 Hf2] Hstop Hk.
  unfold decimal_number. cbn [m_atoms].
  apply greedy_longest; [exact Hi1 | exact Hi2 | |].
  - intros y rest' E. injection E as <- _. reflexivity.
  - change (str "." ++ f ++ rest) with (chr "." :: f ++ rest).
    cbn [m_atoms cls_ok]. rewrite N.eqb_refl.
    apply greedy_longest; [exact Hf1 | exact Hf2 | exact Hstop |].
    cbn [m_atoms].
    rewrite !rev_app_distr in Hk. simpl rev in Hk.
    rewrite <- !app_assoc in Hk. exact Hk.
Qed.

Lemma stakes_match : forall i1 f1 i2 f2 post,
  digits i1 -> digits f1 -> digits i2 -> digits f2 ->
  (forall y post', post = y :: post' -> is_decimal y = false) ->
  match_at cash_game_re
    (str "($" ++ (i1 ++ str "." ++ f1) ++ str "/$"
       ++ (i2 ++ str "." ++ f2) ++ post)
  = Some [i1 ++ str "." ++ f1; i2 ++ str "." ++ f2].
Proof.
  intros i1 f1 i2 f2 post H1 H2 H3 H4 Hstop.
  unfold match_at, cash_game_re, lit, str.
  rewrite m_toks_literal. cbn [app m_toks].
  fold (str "."). fold (str "/$").
  rewrite <- !app_assoc.
  apply m_atoms_decimal_number; [exact H1 | exact H2 | |].
  - intros y rest' E. injection E as <- _. reflexivity.
  - rewrite app_nil_r, rev_involutive.
    unfold str at 3. rewrite m_toks_literal. cbn [app m_toks].
    apply m_atoms_decimal_number; [exact H3 | exact H4 | exact Hstop |].
    rewrite app_nil_r, rev_involutive. reflexivity.
Qed.

Lemma match_at_prefix : forall l p s m,
  match_at (map (fun a => Atom (One (CChar (chr a)))) l ++ p) s = Some m ->
  is_prefix (map chr l) s = true.
Proof.
  intros l p s m H.
  destruct (match_at_sound _ _ H) as (w & rest & -> & Hw).
  apply literal_match in Hw. destruct Hw as (w' & -> & _).
  rewrite <- app_assoc. apply is_prefix_app.
Qed.

Lemma first_stakes_search : forall pre i1 f1 i2 f2 post,
  digits i1 -> digits f1 -> digits i2 -> digits f2 ->
  ~ occurs (str "($") pre ->
  (forall y post', post = y :: post' -> is_decimal y = false) ->
  re_search cash_game_pattern
    (pre ++ str "($" ++ (i1 ++ str "." ++ f1) ++ str "/$"
         ++ (i2 ++ str "." ++ f2) ++ post)
  = Some [i1 ++ str "." ++ f1; i2 ++ str "." ++ f2].
Proof.
  intros pre i1 f1 i2 f2 post H1 H2 H3 H4 Hfirst Hstop.
  rewrite re_search_cash_game, search_skip.
  - apply search_here. apply stakes_match; assumption.
  - intros a b -> Hb.
    destruct (match_at cash_game_re _) as [m|] eqn:E; [|reflexivity].
    exfalso. apply Hfirst.
    apply (@match_at_prefix (list_ascii_of_string "($")) in E.
    apply is_prefix_inv in E. destruct E as [tail E].
    change (map chr (list_ascii_of_string "($")) with (str "($") in E.
    change (str "($") with [40%N; 36%N] in *.
    destruct b as [|b0 [|b1 b']]; [contradiction | |]; cbn [app] in E.
    + injection E as _ E _. discriminate.
    + injection E as -> -> _. exists a, b'. reflexivity.
Qed.

(** X14: the first stakes decide.  When the first [($] of the block opens
    [($<i1>.<f1>/$<i2>.<f2>] and no digit follows [<f2>], these are the
    decimals that [re.search] captures, whole: every record made from the
    block has as its blinds the binary64 floats nearest to them, as
    [float] rounds them, whatever stakes or levels follow. *)
Theorem first_stakes_decide : forall pre i1 f1 i2 f2 post w r w',
  digits i1 -> digits f1 -> digits i2 -> digits f2 ->
  ~ occurs (str "($") pre ->
  (forall y post', post = y :: post' -> is_decimal y = false) ->
  parse_hand_history
    (pre ++ str "($" ++ (i1 ++ str "." ++ f1) ++ str "/$"
         ++ (i2 ++ str "." ++ f2) ++ post) w
  = (Ret (Some r), w') ->
  SmallBlind r = Some (PyFloat (decimal_float i1 f1)) /\
  BigBlind r = Some (PyFloat (decimal_float i2 f2)).
Proof.
  intros pre i1 f1 i2 f2 post w r w' H1 H2 H3 H4 Hfirst Hstop Hr.
  destruct (parse_record_inv _ _ Hr) as (n & bl & _ & _ & Hbl & _ & ->).
  cbn [SmallBlind BigBlind].
  unfold extract_blinds in Hbl.
  rewrite first_stakes_search in Hbl by assumption.
  unfold group in Hbl. cbn [nth Nat.sub] in Hbl.
  unfold bind, lift, ret in Hbl.
  rewrite !float_of_decimal in Hbl by assumption.
  injection Hbl as <-. split; reflexivity.
Qed.

(** ** Which level decides *)

Lemma level_match : forall word sb bb post,
  word <> [] -> forallb is_word word = true -> digits sb -> digits bb ->
  match_at tournament_re
    (str "Level " ++ word ++ str " (" ++ sb ++ str "/" ++ bb ++ str ")"
       ++ post)
  = Some [sb; bb].
Proof.
  intros word sb bb post Hw1 Hw2 [Hs1 Hs2] [Hb1 Hb2].
  unfold match_at, tournament_re, lit.
  unfold str at 1. rewrite m_toks_literal. cbn [app m_toks m_atoms].
  apply greedy_longest; [exact Hw1 | exact Hw2 | |].
  { intros y rest' E. injection E as <- _. reflexivity. }
  cbn [m_atoms]. unfold str at 1. rewrite m_toks_literal.
  cbn [app m_toks m_atoms].
  apply greedy_longest; [exact Hs1 | exact Hs2 | |].
  { intros y rest' E. injection E as <- _. reflexivity. }
  change (str "/" ++ bb ++ str ")" ++ post)
    with (chr "/" :: bb ++ str ")" ++ post).
  cbn [m_atoms m_toks cls_ok]. rewrite N.eqb_refl.
  apply greedy_longest; [exact Hb1 | exact Hb2 | |].
  { intros y rest' E. injection E as <- _. reflexivity. }
  change (str ")" ++ post) with (chr ")" :: post).
  cbn [m_atoms m_toks cls_ok]. rewrite N.eqb_refl.
  rewrite !app_nil_r, !rev_involutive. reflexivity.
Qed.

Lemma first_level_search : forall pre word sb bb post,
  word <> [] -> forallb is_word word = true -> digits sb -> digits bb ->
  ~ occurs (str "Level ") pre ->
  re_search tournament_pattern
    (pre ++ str "Level " ++ word ++ str " (" ++ sb ++ str "/" ++ bb
         ++ str ")" ++ post)
  = Some [sb; bb].
Proof.
  intros pre word sb bb post Hw1 Hw2 Hsb Hbb Hfirst.
  rewrite re_search_tournament, search_skip.
  - apply search_here. apply level_match; assumption.
  - intros a b -> Hb.
    destruct (match_at tournament_re _) as [m|] eqn:E; [|reflexivity].
    exfalso. apply Hfirst.
    apply (@match_at_prefix (list_ascii_of_string "Level ")) in E.
    apply is_prefix_inv in E. destruct E as [tail E].
    change (map chr (list_ascii_of_string "Level ")) with (str "Level ") in E.
    change (str "Level ")
      with [76%N; 101%N; 118%N; 101%N; 108%N; 32%N] in *.
    destruct b as [|c1 [|c2 [|c3 [|c4 [|c5 [|c6 b']]]]]];
      cbn [app] in E; try contradiction; try congruence.
    injection E as -> -> -> -> -> -> _. exists a, b'. reflexivity.
Qed.

(** X15: the first level decides.  When no cash stakes occur in the block
    and its first [Level ] opens [Level <word> (<sb>/<bb>)], these are the
    numbers that [re.search] captures: every record made from the block has
    their values as its blinds, as integers. *)
Theorem first_level_decides : forall pre word sb bb post w r w',
  word <> [] -> forallb is_word word = true -> digits sb -> digits bb ->
  ~ occurs (str "Level ") pre ->
  ~ cash_stakes_occur
      (pre ++ str "Level " ++ word ++ str " (" ++ sb ++ str "/" ++ bb
           ++ str ")" ++ post) ->
  parse_hand_history
    (pre ++ str "Level " ++ word ++ str " (" ++ sb ++ str "/" ++ bb
         ++ str ")" ++ post) w
  = (Ret (Some r), w') ->
  SmallBlind r = Some (PyInt (decimal_value 0 sb)) /\
  BigBlind r = Some (PyInt (decimal_value 0 bb)).
Proof.
  intros pre word sb bb post w r w' Hw1 Hw2 Hsb Hbb Hfirst Hcash Hr.
  destruct (parse_record_inv _ _ Hr) as (n & bl & _ & _ & Hbl & _ & ->).
  cbn [SmallBlind BigBlind].
  unfold extract_blinds in Hbl.
  apply search_cash_game_none in Hcash. rewrite Hcash in Hbl.
  rewrite first_level_search in Hbl by assumption.
  unfold group in Hbl. cbn [nth Nat.sub] in Hbl.
  unfold bind, lift, ret in Hbl.
  rewrite !int_of_digits in Hbl by assumption.
  destruct (too_many_digits (List.length sb)); [discriminate|].
  destruct (too_many_digits (List.length bb)); [discriminate|].
  injection Hbl as <-. split; reflexivity.
Qed.

(** ** The leftmost occurrence *)











(** ** Rows accepted in their turn *)

Lemma accepted_in_turn_app : forall a b t,
  accepted_in_turn t (a ++ b) <->
  accepted_in_turn t a /\ accepted_in_turn (t ++ a) b.
Proof.
  induction a as [|r a IH]; intros b t; simpl.
  - rewrite app_nil_r. tauto.
  - rewrite IH, <- app_assoc. simpl. tauto.
Qed.

Lemma for_enumerate_stores_in_turn : forall blocks records,
  Forall2 record_of blocks records ->
  forall start w,
    accepted_in_turn (table w) records ->
    exists entries,
      for_enumerate process_hand start blocks w =
      (Ret tt, {| log := log w ++ entries; table := table w ++ records |}) /\
      filter is_skip_event entries = [].
Proof.
  induction 1 as [|b r blocks records Hrec Hall IH]; intros start w Hacc.
  - exists []. rewrite !app_nil_r. destruct w. split; reflexivity.
  - destruct Hacc as [Hr Hrest].
    cbn [for_enumerate]. unfold bind.
    destruct (@process_hand_stores start b r w Hrec Hr) as (n & Hn & ->).
    destruct (IH (S start)
                {| log := log w ++ [(INFO, ProcessingHand start);
                                    (INFO, InsertedSuccessfully n)];
                   table := table w ++ [r] |} Hrest)
      as (entries & -> & Hskip).
    cbn [log table].
    exists ([(INFO, ProcessingHand start); (INFO, InsertedSuccessfully n)]
              ++ entries).
    rewrite <- !app_assoc. split; [reflexivity|].
    simpl. exact Hskip.
Qed.

Lemma record_of_parse_result : forall block r,
  record_of block r -> parse_result block = Ret (Some r).
Proof.
  intros block r H. unfold parse_result. rewrite (H empty_world).
  reflexivity.
Qed.

(** C7: failures stay within their block.  When the file splits into
    blocks that all parse, except one without a hand identifier, and the
    server takes each of their records in its turn, the call returns
    normally, the table gains exactly these records, in order, and the log
    has one "skipping hand" line.  In general, whatever the blocks are and
    whatever the server answers, the call returns normally once the file
    is read; the blocks after any block are processed from the world the
    earlier ones left; and a turn appends the record of its block when the
    block parses and the server takes the record, and leaves the table as
    it was in every other case. *)
Theorem block_failures_are_isolated :
  (forall filename content blocks1 bad blocks2 records1 records2 w,
      read_file filename = Ret content ->
      split block_separator content = blocks1 ++ bad :: blocks2 ->
      Forall2 record_of blocks1 records1 ->
      Forall2 record_of blocks2 records2 ->
      ~ hand_id_occurs bad ->
      accepted_in_turn (table w) (records1 ++ records2) ->
      exists entries,
        process_hand_history_file filename w =
        (Ret tt, {| log := log w ++ entries;
                    table := table w ++ records1 ++ records2 |}) /\
        List.length (filter is_skip_event entries) = 1%nat) /\
  (forall filename content w,
      read_file filename = Ret content ->
      exists w', process_hand_history_file filename w = (Ret tt, w')) /\
  (forall start blocks1 blocks2 w,
      for_enumerate process_hand start (blocks1 ++ blocks2) w =
      for_enumerate process_hand (start + List.length blocks1) blocks2
        (snd (for_enumerate process_hand start blocks1 w))) /\
  (forall idx block w,
      fst (process_hand idx block w) = Ret tt /\
      (forall r,
          record_of block r -> sql_accepts (table w) r = true ->
          table (snd (process_hand idx block w)) = table w ++ [r]) /\
      (forall r,
          record_of block r -> sql_accepts (table w) r = false ->
          table (snd (process_hand idx block w)) = table w) /\
      ((forall r, ~ record_of block r) ->
       table (snd (process_hand idx block w)) = table w)).
Proof.
  split; [|split; [|split]].
  - intros filename content blocks1 bad blocks2 records1 records2 w
      Hread Hsplit Hrec1 Hrec2 Hbad Hacc.
    apply accepted_in_turn_app in Hacc. destruct Hacc as [Hacc1 Hacc2].
    unfold process_hand_history_file, try_except, process_body, bind, lift.
    rewrite Hread, Hsplit, for_enumerate_app.
    destruct (@for_enumerate_stores_in_turn blocks1 records1 Hrec1
                1%nat w Hacc1) as (e1 & -> & Hs1).
    cbn [snd for_enumerate]. unfold bind.
    rewrite process_hand_skips by exact Hbad. cbn [log table].
    destruct (@for_enumerate_stores_in_turn blocks2 records2 Hrec2
                (S (1 + List.length blocks1))
                {| log := (log w ++ e1)
                          ++ [(INFO, ProcessingHand (1 + List.length blocks1));
                              (WARNING, HandNumberNotFound)];
                   table := table w ++ records1 |} Hacc2)
      as (e2 & -> & Hs2).
    cbn [log table].
    exists (e1 ++ [(INFO, ProcessingHand (1 + List.length blocks1));
                   (WARNING, HandNumberNotFound)] ++ e2).
    split.
    + rewrite <- !app_assoc. reflexivity.
    + rewrite !filter_app, Hs1, Hs2. reflexivity.
  - intros filename content w Hread.
    unfold process_hand_history_file, try_except, process_body, bind, lift.
    rewrite Hread.
    destruct (for_enumerate_returns (split block_separator content) 1 w)
      as [w' ->].
    exists w'. reflexivity.
  - intros start blocks1 blocks2 w. apply for_enumerate_app.
  - intros idx block w. rewrite process_hand_run. cbn [fst snd table].
    split; [reflexivity|]. unfold turn_rows. split; [|split].
    + intros r Hrec Hacc.
      rewrite (record_of_parse_result Hrec).
      destruct (@parse_result_id block r (record_of_parse_result Hrec))
        as (n & -> & _).
      rewrite Hacc. reflexivity.
    + intros r Hrec Hrej.
      rewrite (record_of_parse_result Hrec).
      destruct (@parse_result_id block r (record_of_parse_result Hrec))
        as (n & -> & _).
      rewrite Hrej. apply app_nil_r.
    + intros Hnone.
      destruct (parse_result block) as [[r|]|e] eqn:Hp;
        try apply app_nil_r.
      exfalso. apply (Hnone r). apply parse_result_record. exact Hp.
Qed.



End Runtime.

(** ** The theorems at work on the sample inputs *)

Lemma parse_without_hand_id_witness :
  ~ hand_id_occurs ascii_only_decimal malformed_block /\
  parse_hand_history ascii_only_decimal ascii_only_alnum
    default_max_str_digits malformed_block empty_world
  = (Ret None, logged empty_world WARNING HandNumberNotFound).
Proof.
  assert (H : ~ hand_id_occurs ascii_only_decimal malformed_block).
  { apply (@hand_id_absent_by_search ascii_only_decimal ascii_only_alnum).
    vm_compute. reflexivity. }
  split; [exact H|].
  apply (@parse_without_hand_id ascii_only_decimal ascii_only_alnum
           default_max_str_digits malformed_block empty_world H).
Defined.

Lemma game_type_by_substring_witness :
  parse_hand_history ascii_only_decimal ascii_only_alnum
    default_max_str_digits mixed_block empty_world
  = (Ret (Some mixed_record), empty_world) /\
  (GameType mixed_record = "Tournament"%string <->
   occurs (str "Tournament") mixed_block).
Proof.
  assert (Hparse :
    parse_hand_history ascii_only_decimal ascii_only_alnum
      default_max_str_digits mixed_block empty_world
    = (Ret (Some mixed_record), empty_world)) by (vm_compute; reflexivity).
  split; [exact Hparse|].
  exact (proj1 (@game_type_by_substring ascii_only_decimal ascii_only_alnum
                  default_max_str_digits mixed_block empty_world mixed_record
                  empty_world Hparse)).
Defined.

Lemma hand_played_by_markers_witness :
  parse_hand_history ascii_only_decimal ascii_only_alnum
    default_max_str_digits folded_block empty_world
  = (Ret (Some folded_record), empty_world) /\
  (HandPlayed folded_record = "N"%string <->
   occurs (str "everyonedoes folded before Flop (didn't bet)") folded_block \/
   occurs (str "everyonedoes (button) folded before Flop (didn't bet)")
     folded_block).
Proof.
  assert (Hparse :
    parse_hand_history ascii_only_decimal ascii_only_alnum
      default_max_str_digits folded_block empty_world
    = (Ret (Some folded_record), empty_world)) by (vm_compute; reflexivity).
  split; [exact Hparse|].
  exact (proj1 (@hand_played_by_markers ascii_only_decimal ascii_only_alnum
                  default_max_str_digits folded_block empty_world
                  folded_record empty_world Hparse)).
Defined.

Lemma split_at_triple_newlines_witness :
  ~ occurs block_separator (str "ABC") /\
  split block_separator (str "ABC") = [str "ABC"].
Proof.
  assert (H : ~ occurs block_separator (str "ABC")).
  { apply contains_false_not_occurs. reflexivity. }
  split; [exact H|].
  exact (proj1 (proj2 split_at_triple_newlines) (str "ABC") H).
Defined.

Lemma parsed_hand_id_and_raw_text_witness :
  parse_hand_history ascii_only_decimal ascii_only_alnum
    default_max_str_digits cash_block empty_world
  = (Ret (Some cash_record), empty_world) /\
  (exists n, HandId cash_record = Some n /\ n <> 0%Z) /\
  RawHandHistory cash_record = cash_block.
Proof.
  assert (Hparse :
    parse_hand_history ascii_only_decimal ascii_only_alnum
      default_max_str_digits cash_block empty_world
    = (Ret (Some cash_record), empty_world)) by (vm_compute; reflexivity).
  split; [exact Hparse|].
  exact (@parsed_hand_id_and_raw_text ascii_only_decimal ascii_only_alnum
           default_max_str_digits cash_block empty_world cash_record
           empty_world Hparse).
Defined.

Lemma missing_file_is_reported_witness :
  sample_read_file "nowhere.txt" = Raise FileNotFoundError /\
  exists w',
    process_hand_history_file ascii_only_decimal ascii_only_alnum
      always_accepts sample_read_file default_max_str_digits
      "nowhere.txt" empty_world = (Ret tt, w') /\
    table w' = table empty_world /\
    log w' = log empty_world ++ [(ERROR, FileNotFound "nowhere.txt")].
Proof.
  split; [reflexivity|].
  apply (@missing_file_is_reported ascii_only_decimal ascii_only_alnum
           always_accepts sample_read_file default_max_str_digits
           "nowhere.txt"%string empty_world).
  reflexivity.
Defined.

Lemma parse_zero_hand_number_witness :
  re_search ascii_only_decimal ascii_only_alnum hand_number_pattern zero_block
  = Some [str "0"] /\
  parse_hand_history ascii_only_decimal ascii_only_alnum
    default_max_str_digits zero_block empty_world
  = (Ret None, logged empty_world WARNING HandNumberNotFound).
Proof.
  split; [vm_compute; reflexivity|].
  apply (proj1 (@parse_zero_hand_number ascii_only_decimal ascii_only_alnum
                  default_max_str_digits) zero_block empty_world [str "0"]).
  - vm_compute. reflexivity.
  - vm_compute. reflexivity.
Defined.

(** The first header decides: a later [#0:] does not make the block a skip. *)
Lemma parse_two_headers :
  exists r,
    parse_hand_history ascii_only_decimal ascii_only_alnum
      default_max_str_digits two_header_block empty_world
    = (Ret (Some r), empty_world) /\ HandId r = Some 5%Z.
Proof. eexists. split; vm_compute; reflexivity. Qed.



(** ** The further properties on the sample inputs *)

Lemma first_header_decides_witness :
  extract_hand_number ascii_only_decimal ascii_only_alnum
    default_max_str_digits padded_block empty_world
  = (Ret (Some 42%Z), empty_world).
Proof.
  assert (Hd : digits ascii_only_decimal (str "0042")).
  { split; [discriminate | reflexivity]. }
  assert (Hno : ~ hand_id_occurs ascii_only_decimal
                    ([newline] ++ str "PokerStars Hand #" ++ str "0042")).
  { apply (@hand_id_absent_by_search ascii_only_decimal ascii_only_alnum).
    vm_compute. reflexivity. }
  apply (proj1 (proj2 (@first_header_decides ascii_only_decimal
                         ascii_only_alnum default_max_str_digits
                         [newline] (str "0042")
                         (str " Hold'em PokerStars Hand #7:")
                         empty_world Hd Hno))).
  reflexivity.
Defined.

Lemma record_numbers_witness :
  parse_hand_history ascii_only_decimal ascii_only_alnum
    default_max_str_digits folded_block empty_world
  = (Ret (Some folded_record), empty_world) /\
  exists n, HandId folded_record = Some n /\ (0 < n)%Z.
Proof.
  assert (Hparse :
    parse_hand_history ascii_only_decimal ascii_only_alnum
      default_max_str_digits folded_block empty_world
    = (Ret (Some folded_record), empty_world)) by (vm_compute; reflexivity).
  split; [exact Hparse|].
  exact (proj1 (@record_numbers ascii_only_decimal ascii_only_alnum
                  default_max_str_digits folded_block empty_world
                  folded_record empty_world Hparse)).
Defined.

Lemma file_rows_come_from_blocks_witness :
  exists added entries,
    process_hand_history_file ascii_only_decimal ascii_only_alnum
      always_accepts sample_read_file default_max_str_digits
      "handhistory.txt" empty_world
    = (Ret tt, {| log := log empty_world ++ entries;
                  table := table empty_world ++ added |}) /\
    (List.length added <= 3)%nat.
Proof.
  destruct (@file_rows_come_from_blocks ascii_only_decimal ascii_only_alnum
              always_accepts sample_read_file default_max_str_digits
              "handhistory.txt"%string sample_file empty_world eq_refl)
    as (added & entries & Hrun & Hlen & _).
  exists added, entries. split; [exact Hrun | exact Hlen].
Defined.


Lemma file_with_refusing_server_witness :
  fst (process_hand_history_file ascii_only_decimal ascii_only_alnum
         never_accepts sample_read_file default_max_str_digits
         "handhistory.txt" empty_world) = Ret tt /\
  table (snd (process_hand_history_file ascii_only_decimal ascii_only_alnum
                never_accepts sample_read_file default_max_str_digits
                "handhistory.txt" empty_world)) = table empty_world.
Proof.
  apply (@file_with_refusing_server ascii_only_decimal ascii_only_alnum
           never_accepts sample_read_file default_max_str_digits
           "handhistory.txt"%string sample_file empty_world).
  - intros t r. reflexivity.
  - reflexivity.
Defined.

Lemma file_visits_every_block_witness :
  exists entries,
    log (snd (process_hand_history_file ascii_only_decimal ascii_only_alnum
                always_accepts sample_read_file default_max_str_digits
                "handhistory.txt" empty_world))
    = log empty_world ++ entries /\
    processing_indices entries
    = seq 1 (List.length (split block_separator sample_file)).
Proof.
  apply (@file_visits_every_block ascii_only_decimal ascii_only_alnum
           always_accepts sample_read_file default_max_str_digits
           "handhistory.txt"%string sample_file empty_world).
  reflexivity.
Defined.

Lemma file_without_hand_id_witness :
  exists entries,
    process_hand_history_file ascii_only_decimal ascii_only_alnum
      always_accepts headerless_read_file default_max_str_digits
      "handhistory.txt" empty_world
    = (Ret tt, {| log := log empty_world ++ entries;
                  table := table empty_world |}) /\
    List.length (filter is_skip_event entries)
    = List.length (split block_separator headerless_file).
Proof.
  apply (@file_without_hand_id ascii_only_decimal ascii_only_alnum
           always_accepts headerless_read_file default_max_str_digits
           "handhistory.txt"%string headerless_file empty_world).
  - reflexivity.
  - apply (@hand_id_absent_by_search ascii_only_decimal ascii_only_alnum).
    vm_compute. reflexivity.
Defined.

Lemma split_join_round_trip_witness :
  split block_separator
    (join block_separator ([str "A"; str "B"] ++ [str "C"]))
  = [str "A"; str "B"] ++ [str "C"].
Proof.
  apply split_join_round_trip.
  - repeat constructor; apply contains_false_not_occurs; reflexivity.
  - apply contains_false_not_occurs. reflexivity.
Defined.

Lemma first_stakes_decide_witness :
  SmallBlind cash_record
  = Some (PyFloat (decimal_float ascii_only_decimal (str "0") (str "01")))
  /\
  BigBlind cash_record
  = Some (PyFloat (decimal_float ascii_only_decimal (str "0") (str "02"))).
Proof.
  apply (@first_stakes_decide ascii_only_decimal ascii_only_alnum
           default_max_str_digits
           (str "PokerStars Hand #12345: Hold'em No Limit ")
           (str "0") (str "01") (str "0") (str "02") (str " USD)")
           empty_world cash_record empty_world).
  - split; [discriminate | reflexivity].
  - split; [discriminate | reflexivity].
  - split; [discriminate | reflexivity].
  - split; [discriminate | reflexivity].
  - apply contains_false_not_occurs. reflexivity.
  - intros y post' E. injection E as <- _. reflexivity.
  - vm_compute. reflexivity.
Defined.

Lemma first_level_decides_witness :
  SmallBlind folded_record = Some (PyInt 10) /\
  BigBlind folded_record = Some (PyInt 20).
Proof.
  apply (@first_level_decides ascii_only_decimal ascii_only_alnum
           default_max_str_digits
           (str "PokerStars Hand #8: Tournament #9, ")
           (str "I") (str "10") (str "20")
           (str " Seat 1: everyonedoes folded before Flop (didn't bet)")
           empty_world folded_record empty_world).
  - discriminate.
  - reflexivity.
  - split; [discriminate | reflexivity].
  - split; [discriminate | reflexivity].
  - apply contains_false_not_occurs. reflexivity.
  - apply (proj1 (@search_cash_game_none ascii_only_decimal ascii_only_alnum
                    _)).
    vm_compute. reflexivity.
  - vm_compute. reflexivity.
Defined.

(** ** The float of a decimal, on examples *)

Lemma float_of_one_tenth :
  float_of_text ascii_only_decimal (str "0.1")
  = Ret (SpecFloat.S754_finite false 7205759403792794 (-56)).
Proof. vm_compute. reflexivity. Qed.

(** Digits beyond the precision of a float are rounded away. *)
Lemma float_of_long_decimal :
  float_of_text ascii_only_decimal (str "0.10000000000000000001")
  = float_of_text ascii_only_decimal (str "0.1").
Proof. vm_compute. reflexivity. Qed.

Lemma float_of_trailing_zero :
  float_of_text ascii_only_decimal (str "0.50")
  = float_of_text ascii_only_decimal (str "0.5").
Proof. vm_compute. reflexivity. Qed.

(** A tie goes to the even neighbour: [2^53 + 1] becomes [2^53]. *)
Lemma float_of_tie :
  float_of_text ascii_only_decimal (str "9007199254740993.0")
  = float_of_text ascii_only_decimal (str "9007199254740992.0").
Proof. vm_compute. reflexivity. Qed.

(** Beyond the range the float is infinity, not an error. *)
Lemma float_of_huge_decimal :
  float_of_text ascii_only_decimal
    (str "1" ++ repeat (chr "0") 309 ++ str ".0")
  = Ret (SpecFloat.S754_infinity false).
Proof. vm_compute. reflexivity. Qed.

(** ** The amended precedence of the blinds on the sample inputs *)



(** ** Isolation on the sample file, with a primary-key server *)

Lemma block_failures_are_isolated_witness :
  accepted_in_turn primary_key_server (table empty_world)
    ([cash_record] ++ [folded_record]) /\
  exists entries,
    process_hand_history_file ascii_only_decimal ascii_only_alnum
      primary_key_server sample_read_file default_max_str_digits
      "handhistory.txt" empty_world
    = (Ret tt,
       {| log := log empty_world ++ entries;
          table := table empty_world ++ [cash_record] ++ [folded_record] |})
    /\
    List.length (filter is_skip_event entries) = 1%nat.
Proof.
  assert (Hacc : accepted_in_turn primary_key_server (table empty_world)
                   ([cash_record] ++ [folded_record])).
  { simpl. repeat split. }
  split; [exact Hacc|].
  apply (proj1 (@block_failures_are_isolated ascii_only_decimal
                  ascii_only_alnum primary_key_server sample_read_file
                  default_max_str_digits)
           "handhistory.txt"%string sample_file [cash_block] malformed_block
           [folded_block] [cash_record] [folded_record] empty_world).
  - reflexivity.
  - vm_compute. reflexivity.
  - constructor; [|constructor]. intros w. vm_compute. reflexivity.
  - constructor; [|constructor]. intros w. vm_compute. reflexivity.
  - apply (@hand_id_absent_by_search ascii_only_decimal ascii_only_alnum).
    vm_compute. reflexivity.
  - exact Hacc.
Defined.
